(** * A shallow embedding of [langchain/docstore/artifacts.py]

    The file models the three classes of the module:
    - [InMemoryStore], the metadata index (a list of artifact records and
      two dictionaries over it);
    - [FileSystemArtifactLayer], which writes one payload file per document
      hash and keeps the index next to them;
    - [CachingInterceptor], which wraps a document transformer and consults
      the layer before invoking it.

    Python objects that are mutated in place are modelled by explicit state
    passing; exceptions by a result type.  An exception leaves the mutations
    made before it in place, so a computation returns its result together
    with the state it reached, also when it raises. *)

From stdpp Require Import gmap strings list fin_maps.

Local Open Scope string_scope.
Local Open Scope list_scope.

(** ** Exceptions and the state-and-exception monad *)

Inductive Exception : Type :=
  | KeyError            (* [d[k]] on a missing key *)
  | TypeError           (* e.g. iterating over [None] *)
  | AttributeError      (* [m.name] on a module without that name *)
  | NotImplementedError
  | OSError             (* [open(path, "w")] refused, or a write cut short *)
  | FileNotFoundError   (* [open(path, "r")] on a missing file *)
  | DeserializeError    (* raised by [deserialize_document] *)
  | TransformerError    (* raised by the wrapped transformer *)
  | DuplicateError.     (* named by the specification; the module neither
                           defines nor raises it *)

Inductive Res (A : Type) : Type :=
  | Ok (a : A)
  | Raise (e : Exception).
Arguments Ok {A} a.
Arguments Raise {A} e.

Definition M (S A : Type) : Type := S -> Res A * S.

Definition ret {S A} (a : A) : M S A := fun s => (Ok a, s).

Definition raise {S A} (e : Exception) : M S A := fun s => (Raise e, s).

Definition bind {S A B} (m : M S A) (k : A -> M S B) : M S B :=
  fun s =>
    match m s with
    | (Ok a, s') => k a s'
    | (Raise e, s') => (Raise e, s')
    end.

Notation "'do' x <- m ; k" := (bind m (fun x => k))
  (at level 10, x name, m at level 100, k at level 200, only parsing).
Notation "'do_' m ; k" := (bind m (fun _ => k))
  (at level 10, m at level 100, k at level 200, only parsing).

(** [for x in xs: body x] *)
Fixpoint for_each {S A} (xs : list A) (body : A -> M S unit) : M S unit :=
  match xs with
  | [] => ret tt
  | x :: xs' => do_ body x; for_each xs' body
  end.

(** [for x in xs: acc = body acc x], for a loop that grows a local. *)
Fixpoint for_acc {S A B} (xs : list A) (body : B -> A -> M S B) (acc : B)
  : M S B :=
  match xs with
  | [] => ret acc
  | x :: xs' => do acc' <- body acc x; for_acc xs' body acc'
  end.

(** Read the state without changing it. *)
Definition inspect {S A} (f : S -> Res A) : M S A := fun s => (f s, s).

(** Run a computation on a component of the state. *)
Definition zoom {S T A} (proj : S -> T) (upd : T -> S -> S) (m : M T A)
  : M S A :=
  fun s => let '(r, t) := m (proj s) in (r, upd t s).

(** A generator is modelled by what it yields before it stops, and by the
    exception that stopped it, if any. *)
Definition Gen (A : Type) : Type := (list A * option Exception)%type.

(** [list(g)], [xs.extend(g)]: consuming a generator to its end. *)
Definition collect {A} (g : Gen A) : Res (list A) :=
  match g with
  | (xs, None) => Ok xs
  | (_, Some e) => Raise e
  end.

(** ** Data model *)

(** [class Artifact(TypedDict)].  The persisted schema has strings for
    [uuid] and [custom_id]. *)
Record Artifact : Type := {
  custom_id : string;
  uuid : string;
  parent_uuids : list string;
  metadata : gmap string string;
}.

(** Modelled from the spec: [langchain.schema.Document] is imported by the
    module and not part of it.  A document "carries [logical_id],
    [content_hash], [parent_hashes], [metadata], and raw content"; the
    module reads the first four as [document.id], [document.hash_],
    [document.parent_hashes] and [document.metadata]. *)
Record Document : Type := {
  id_ : string;
  hash_ : string;
  parent_hashes : list string;
  doc_metadata : gmap string string;
  page_content : string;
}.

Module Selector.
(** Modelled from the spec: [langchain.docstore.base.Selector] is imported
    by the module and not part of it.  It is "a structured query object
    with fields [ids?: set<string>], [hashes?: set<string>],
    [parent_hashes?: set<string>]"; an absent field is [None]. *)
Record t : Type := {
  ids : option (gset string);
  hashes : option (gset string);
  parent_hashes : option (gset string);
}.
End Selector.

(** Truth value of an optional set: [None] and the empty set are falsy. *)
Definition truthy (o : option (gset string)) : bool :=
  match o with
  | Some s => bool_decide (s ≠ ∅)
  | None => false
  end.

(** [x in o], evaluated only behind [truthy o]. *)
Definition member (x : string) (o : option (gset string)) : bool :=
  match o with
  | Some s => bool_decide (x ∈ s)
  | None => false
  end.

(** ** InMemoryStore *)

Module InMemoryStore.

(** [self.data["artifacts"]] and [self.artifacts] are one list object, so
    one field stands for both. *)
Record t : Type := {
  artifacts : list Artifact;
  artifact_uuid : gmap string Artifact;
  artifact_ids : gmap string Artifact;
}.

(** [{key(a): a for a in l}]: a later record replaces an earlier one. *)
Definition index_by (key : Artifact -> string) (l : list Artifact)
  : gmap string Artifact :=
  foldl (fun m a => <[key a := a]> m) ∅ l.

(** [InMemoryStore.__init__] *)
Definition init (data : list Artifact) : t :=
  {| artifacts := data;
     artifact_uuid := index_by uuid data;
     artifact_ids := index_by custom_id data |}.

(** [k in d] *)
Definition contains (d : gmap string Artifact) (k : string) : bool :=
  match d !! k with
  | Some _ => true
  | None => false
  end.

(** [InMemoryStore.exists_by_id] *)
Definition exists_by_id (ids : list string) (st : t) : list bool :=
  (fun id_ => contains (artifact_ids st) id_) <$> ids.

(** [InMemoryStore.exists_by_uuid]: the source consults
    [self.artifact_ids] here as well. *)
Definition exists_by_uuid (uuids : list string) (st : t) : list bool :=
  (fun uuid_ => contains (artifact_ids st) uuid_) <$> uuids.

(** [InMemoryStore.get_by_uuids]: [self.artifact_uuid[uuid]] raises
    [KeyError] on the first missing key. *)
Fixpoint get_by_uuids (uuids : list string) (st : t) : Res (list Artifact) :=
  match uuids with
  | [] => Ok []
  | u :: us =>
      match artifact_uuid st !! u with
      | None => Raise KeyError
      | Some a =>
          match get_by_uuids us st with
          | Ok l => Ok (a :: l)
          | Raise e => Raise e
          end
      end
  end.

(** The body of the loop of [InMemoryStore.select] for one artifact:
    whether its uuid is yielded.  The third test calls
    [set(...).intersection(selector.parent_hashes)], which raises
    [TypeError] on [None]; it is reached only for an artifact with parents
    that the first two tests did not select. *)
Definition select_test (selector : Selector.t) (artifact : Artifact)
  : Res bool :=
  if truthy (Selector.ids selector)
     && member (uuid artifact) (Selector.ids selector) then Ok true
  else if truthy (Selector.hashes selector)
     && member (uuid artifact) (Selector.hashes selector) then Ok true
  else
    match parent_uuids artifact with
    | [] => Ok false
    | _ :: _ =>
        match Selector.parent_hashes selector with
        | None => Raise TypeError
        | Some ph =>
            Ok (bool_decide (list_to_set (parent_uuids artifact) ∩ ph ≠ ∅))
        end
    end.

Fixpoint select_loop (selector : Selector.t) (l : list Artifact)
  : Gen string :=
  match l with
  | [] => ([], None)
  | artifact :: l' =>
      match select_test selector artifact with
      | Raise e => ([], Some e)
      | Ok true =>
          let '(ys, e) := select_loop selector l' in
          (uuid artifact :: ys, e)
      | Ok false => select_loop selector l'
      end
  end.

(** [InMemoryStore.select] *)
Definition select (selector : Selector.t) (st : t) : Gen string :=
  select_loop selector (artifacts st).

(** [InMemoryStore.add] *)
Definition add (artifact : Artifact) : M t unit :=
  fun st =>
    (Ok tt,
     {| artifacts := artifacts st ++ [artifact];
        artifact_uuid := <[uuid artifact := artifact]> (artifact_uuid st);
        artifact_ids :=
          <[custom_id artifact := artifact]> (artifact_ids st) |}).

(** [InMemoryStore.remove_by_uuids] *)
Definition remove_by_uuids (uuids : list string) : M t unit :=
  raise NotImplementedError.

(** [InMemoryStore.remove] *)
Definition remove (selector : Selector.t) : M t unit :=
  fun st =>
    match collect (select selector st) with
    | Raise e => (Raise e, st)
    | Ok uuids => remove_by_uuids uuids st
    end.

(** The dictionaries are the comprehensions of [__init__] over the
    current list. *)
Definition consistent (st : t) : Prop :=
  artifact_uuid st = index_by uuid (artifacts st)
  /\ artifact_ids st = index_by custom_id (artifacts st).

(** The stores a program can hold: built by [__init__], then grown by
    [add] ([remove] never returns normally and changes nothing). *)
Inductive reachable : t -> Prop :=
  | reach_init (data : list Artifact) : reachable (init data)
  | reach_add (st : t) (artifact : Artifact) :
      reachable st -> reachable (snd (add artifact st)).

(** Whether [select] yields the uuid of an artifact, when its test does
    not raise. *)
Definition selected (selector : Selector.t) (artifact : Artifact) : bool :=
  match select_test selector artifact with
  | Ok b => b
  | Raise _ => false
  end.

(** The selection, stated on the record: its uuid is in the [ids] clause
    or in the [hashes] clause, or one of its parents is in the
    [parent_hashes] clause.  An absent clause holds nothing. *)
Definition matches (selector : Selector.t) (artifact : Artifact) : Prop :=
  uuid artifact ∈ default ∅ (Selector.ids selector)
  \/ uuid artifact ∈ default ∅ (Selector.hashes selector)
  \/ Exists (fun p => p ∈ default ∅ (Selector.parent_hashes selector))
       (parent_uuids artifact).

#[global] Instance matches_dec selector artifact :
  Decision (matches selector artifact).
Proof. unfold matches. apply _. Defined.

(** A record on which the scan stops a selector without [parent_hashes]
    clause: it has parents, and neither the [ids] nor the [hashes] clause
    picks it. *)
Definition stuck (selector : Selector.t) (artifact : Artifact) : Prop :=
  parent_uuids artifact <> []
  /\ (uuid artifact ∉ default ∅ (Selector.ids selector))
  /\ (uuid artifact ∉ default ∅ (Selector.hashes selector)).

#[global] Instance stuck_dec selector artifact :
  Decision (stuck selector artifact).
Proof. unfold stuck. apply _. Defined.

(** A run of [add] over a list of records. *)
Definition add_all (l : list Artifact) (st : t) : t :=
  foldl (fun st a => snd (add a st)) st l.

End InMemoryStore.

(** ** FileSystemArtifactLayer *)

Module FileSystemArtifactLayer.

(** What is found at [root / "metadata.json"]: no file, a file of zero
    bytes (as [open(path, "w")] leaves it before anything is written), or
    a JSON document whose ["artifacts"] key lists records. *)
Inductive MetadataFile : Type :=
  | Missing
  | Truncated
  | Listing (l : list Artifact).

Section Layer.

(** The serialization format belongs to
    [langchain.docstore.serialization]; the layer is parametric in it. *)
Context {Payload : Type}.
Variable serialize_document : Document -> Payload.
Variable deserialize_document : Payload -> option Document.

(** What becomes of one [with open(path, "w") as f: f.write(...)].  The
    file is opened before the text to write is computed and written: an
    open that is refused raises [OSError] and leaves the file alone; an
    open that succeeds empties the file, and when [serialize_document] or
    [f.write] then raises [e], the file keeps [rest] (nothing, or the part
    written so far). *)
Inductive Outcome : Type :=
  | Written
  | Refused
  | Torn (rest : Payload) (e : Exception).

(** The layer object together with the directory [self.root] it owns:
    [files] maps the name of a payload file to its content,
    [metadata_json] is the state of [metadata.json], [metadata_store] the
    in-memory index.  Payload files are named by document hashes, which
    are uuids, so none of them is [metadata.json] and the snapshot is kept
    apart from [files].  [faults] scripts the outcome of the coming
    [open(path, "w")] blocks; once the script is used up every write goes
    through. *)
Record t : Type := {
  files : gmap string Payload;
  metadata_json : MetadataFile;
  metadata_store : InMemoryStore.t;
  faults : list Outcome;
}.

Definition set_files (f : gmap string Payload) (w : t) : t :=
  {| files := f; metadata_json := metadata_json w;
     metadata_store := metadata_store w; faults := faults w |}.

Definition set_metadata_json (j : MetadataFile) (w : t) : t :=
  {| files := files w; metadata_json := j;
     metadata_store := metadata_store w; faults := faults w |}.

Definition set_metadata_store (st : InMemoryStore.t) (w : t) : t :=
  {| files := files w; metadata_json := metadata_json w;
     metadata_store := st; faults := faults w |}.

Definition set_faults (fs : list Outcome) (w : t) : t :=
  {| files := files w; metadata_json := metadata_json w;
     metadata_store := metadata_store w; faults := fs |}.

(** [open(path, "w")]: takes the next outcome off the script.  A refused
    open raises; any other outcome is handed on to the body of the [with]
    block. *)
Definition open_w : M t Outcome :=
  fun w =>
    match faults w with
    | [] => (Ok Written, w)
    | Refused :: fs => (Raise OSError, set_faults fs w)
    | o :: fs => (Ok o, set_faults fs w)
    end.

(** [with open(self.root / name, "w") as f: f.write(payload)].  Nothing
    reads the file between the open and the write, so the emptied file is
    not a state of its own: the block leaves either the payload or what a
    failed write left. *)
Definition write_file (name : string) (payload : Payload) : M t unit :=
  do o <- open_w;
  fun w =>
    match o with
    | Torn rest e => (Raise e, set_files (<[name := rest]> (files w)) w)
    | _ => (Ok tt, set_files (<[name := payload]> (files w)) w)
    end.

(** [json.dump(self.data, f)] and [json.load(f)].  The module imports the
    standard library's [json] at line 61 and rebinds the name at line 78,
    [from langchain.output_parsers import json]; from then on [json] is
    the package's module of Markdown-JSON parsers, which has neither a
    [dump] nor a [load].  Looking either name up raises [AttributeError]
    before the file is written or read. *)
Definition json_dump : M t unit := raise AttributeError.

Definition json_load (f : MetadataFile) : Res (list Artifact) :=
  Raise AttributeError.

(** [InMemoryStore.save(self.metadata_path)]: the open empties
    [metadata.json], then [json.dump] is looked up. *)
Definition save : M t unit :=
  do_ open_w;
  do_ (fun w => (Ok tt, set_metadata_json Truncated w));
  json_dump.

(** [InMemoryStore.from_file(metadata_path)]: [open(path, "r")] needs the
    file to be there; its content goes through [json.load]. *)
Definition from_file (f : MetadataFile) : Res InMemoryStore.t :=
  match f with
  | Missing => Raise FileNotFoundError
  | Truncated | Listing _ =>
      match json_load f with
      | Ok content => Ok (InMemoryStore.init content)
      | Raise e => Raise e
      end
  end.

(** [FileSystemArtifactLayer.__init__] on a directory with payload files
    [dir] and [metadata.json] in state [json]: the index is loaded with
    [from_file]. *)
Definition init (dir : gmap string Payload) (json : MetadataFile)
  (script : list Outcome) : Res t :=
  match from_file json with
  | Ok st =>
      Ok {| files := dir; metadata_json := json;
            metadata_store := st; faults := script |}
  | Raise e => Raise e
  end.

(** A layer object whose index holds the records [l], over the payload
    files [dir] and a [metadata.json] that lists [l]. *)
Definition holding (dir : gmap string Payload) (l : list Artifact)
  (script : list Outcome) : t :=
  {| files := dir; metadata_json := Listing l;
     metadata_store := InMemoryStore.init l; faults := script |}.

(** [FileSystemArtifactLayer.exists_by_uuid] *)
Definition exists_by_uuid (uuids : list string) (w : t) : list bool :=
  InMemoryStore.exists_by_uuid uuids (metadata_store w).

(** [FileSystemArtifactLayer.exists_by_id] *)
Definition exists_by_id (ids : list string) (w : t) : list bool :=
  InMemoryStore.exists_by_id ids (metadata_store w).

(** The metadata record that [add] builds for a document. *)
Definition record_of (document : Document) : Artifact :=
  {| custom_id := id_ document;
     uuid := hash_ document;
     parent_uuids := parent_hashes document;
     metadata := doc_metadata document |}.

(** The body of the loop of [FileSystemArtifactLayer.add]. *)
Definition add_one (document : Document) : M t unit :=
  do_ write_file (hash_ document) (serialize_document document);
  zoom metadata_store set_metadata_store
    (InMemoryStore.add (record_of document)).

(** [FileSystemArtifactLayer.add] *)
Definition add (documents : list Document) : M t unit :=
  do_ for_each documents add_one;
  save.

(** [with open(path, "r") as f: deserialize_document(f.read())] *)
Definition read_document (name : string) (w : t) : Res Document :=
  match files w !! name with
  | None => Raise FileNotFoundError
  | Some payload =>
      match deserialize_document payload with
      | Some document => Ok document
      | None => Raise DeserializeError
      end
  end.

(** The loop of [get_matching_documents] over the uuids that [select]
    yields; [stop] is the exception that ends [select], if any.  A file
    that cannot be read ends the iteration first. *)
Fixpoint read_documents (uuids : list string) (stop : option Exception)
  (w : t) : Gen Document :=
  match uuids with
  | [] => ([], stop)
  | u :: us =>
      match read_document u w with
      | Raise e => ([], Some e)
      | Ok document =>
          let '(ds, e) := read_documents us stop w in (document :: ds, e)
      end
  end.

(** [FileSystemArtifactLayer.get_matching_documents] *)
Definition get_matching_documents (selector : Selector.t) (w : t)
  : Gen Document :=
  let '(uuids, stop) := InMemoryStore.select selector (metadata_store w) in
  read_documents uuids stop w.

(** Modelled from the spec: [ArtifactLayer.exists] is inherited from
    [langchain.docstore.base.ArtifactLayer], which is not part of the
    module.  "Check existence of each input document's [logical_id]
    against the ArtifactLayer (batch query, order-preserving)." *)
Definition exists_ (ids : list string) (w : t) : list bool :=
  exists_by_id ids w.

(** The selector with the single clause [parent_hashes = {h}]. *)
Definition children_of (h : string) : Selector.t :=
  {| Selector.ids := None;
     Selector.hashes := None;
     Selector.parent_hashes := Some {[h]} |}.

(** Modelled from the spec: [ArtifactLayer.get_child_documents] is
    inherited from [langchain.docstore.base.ArtifactLayer] as well.  It
    resolves "the previously stored children (artifacts whose
    [parent_hashes] include this input's hash)". *)
Definition get_child_documents (h : string) (w : t) : Gen Document :=
  get_matching_documents (children_of h) w.

(** What a run of the loop of [add] over [documents] leaves behind when
    every write goes through: the payload files, and the index. *)
Definition payloads_of (documents : list Document)
  (f : gmap string Payload) : gmap string Payload :=
  foldl (fun m d => <[hash_ d := serialize_document d]> m) f documents.

Definition records_of (documents : list Document) (st : InMemoryStore.t)
  : InMemoryStore.t :=
  foldl (fun st d => snd (InMemoryStore.add (record_of d) st)) st documents.

(** Every record of the in-memory index has its payload file. *)
Definition backed (w : t) : Prop :=
  forall a, a ∈ InMemoryStore.artifacts (metadata_store w) ->
    is_Some (files w !! uuid a).

(** The file named by the hash of a record holds, whole, the payload of
    a document with that hash. *)
Definition holds_payload (w : t) (a : Artifact) : Prop :=
  exists d, hash_ d = uuid a
    /\ files w !! uuid a = Some (serialize_document d).

(** Every record of the in-memory index references a whole payload. *)
Definition intact (w : t) : Prop :=
  forall a, a ∈ InMemoryStore.artifacts (metadata_store w) ->
    holds_payload w a.


(** The selector with the single clause [hashes = set(hs)]; its
    [parent_hashes] clause is the empty set. *)
Definition hashes_of (hs : list string) : Selector.t :=
  {| Selector.ids := None;
     Selector.hashes := Some (list_to_set hs);
     Selector.parent_hashes := Some ∅ |}.

(** The selector with the single clause [hashes = set(hs)] and no other
    clause: its [parent_hashes] is [None]. *)
Definition hashes_only (hs : list string) : Selector.t :=
  {| Selector.ids := None;
     Selector.hashes := Some (list_to_set hs);
     Selector.parent_hashes := None |}.

End Layer.
End FileSystemArtifactLayer.

(** ** CachingInterceptor *)

Module CachingInterceptor.
Section Interceptor.

Context {Payload : Type}.
Variable serialize_document : Document -> Payload.
Variable deserialize_document : Payload -> option Document.

(** The wrapped transformer is opaque: it may keep state of its own and
    may raise. *)
Context {TState : Type}.
Variable document_transformer : list Document -> M TState (list Document).

Local Abbreviation Layer := (@FileSystemArtifactLayer.t Payload).

(** The interceptor with its two collaborators.  [calls] logs the
    arguments of every invocation of the transformer. *)
Record t : Type := {
  _artifact_layer : Layer;
  _document_transformer : TState;
  calls : list (list Document);
}.

Definition set_layer (w : Layer) (c : t) : t :=
  {| _artifact_layer := w;
     _document_transformer := _document_transformer c;
     calls := calls c |}.

(** [self._document_transformer.transform_documents(documents)] *)
Definition invoke (documents : list Document) : M t (list Document) :=
  fun c =>
    let '(r, ts) := document_transformer documents (_document_transformer c) in
    (r, {| _artifact_layer := _artifact_layer c;
           _document_transformer := ts;
           calls := calls c ++ [documents] |}).

(** [list(self._artifact_layer.get_child_documents(h))]: the layer is
    read, nothing is written. *)
Definition get_child_documents (h : string) : M t (list Document) :=
  inspect (fun c =>
    collect (FileSystemArtifactLayer.get_child_documents
               deserialize_document h (_artifact_layer c))).

(** The body of the loop of [transform_documents]. *)
Definition transform_one (new_docs : list Document)
  (de : Document * bool) : M t (list Document) :=
  let '(document, exists_) := de in
  if negb exists_ then
    do transformed_docs <- invoke [document];
    do_ zoom _artifact_layer set_layer
          (FileSystemArtifactLayer.add serialize_document transformed_docs);
    ret (new_docs ++ transformed_docs)
  else
    do children <- get_child_documents (hash_ document);
    ret (new_docs ++ children).

(** [CachingInterceptor.transform_documents] *)
Definition transform_documents (documents : list Document)
  : M t (list Document) :=
  fun c =>
    let existence :=
      FileSystemArtifactLayer.exists_ (id_ <$> documents)
        (_artifact_layer c) in
    for_acc (zip documents existence) transform_one [] c.


(** The loop of [transform_documents] over [documents], with the
    existence flags taken from the layer [w]. *)
Definition transform_loop (w : Layer) (documents : list Document)
  (new_docs : list Document) : M t (list Document) :=
  for_acc
    (zip documents (FileSystemArtifactLayer.exists_ (id_ <$> documents) w))
    transform_one new_docs.

End Interceptor.
End CachingInterceptor.

(** ** Sample data *)

Module Sample.

(** Artifact A, with logical id "x" and no parents. *)
Definition A : Artifact :=
  {| custom_id := "x"; uuid := "hA"; parent_uuids := []; metadata := ∅ |}.

(** Artifact B, derived from A. *)
Definition B : Artifact :=
  {| custom_id := "y"; uuid := "hB"; parent_uuids := ["hA"];
     metadata := ∅ |}.

(** A document D and the single output O a transformer derives from it. *)
Definition D : Document :=
  {| id_ := "d"; hash_ := "hD"; parent_hashes := [];
     doc_metadata := ∅; page_content := "text" |}.

Definition O : Document :=
  {| id_ := "o"; hash_ := "hO"; parent_hashes := ["hD"];
     doc_metadata := ∅; page_content := "TEXT" |}.

(** A layer with an empty index over an empty directory, with no write
    fault ahead. *)
Definition empty_layer {Payload : Type} : @FileSystemArtifactLayer.t Payload :=
  FileSystemArtifactLayer.holding ∅ [] [].

(** A second input document, unrelated to D. *)
Definition E : Document :=
  {| id_ := "e"; hash_ := "hE"; parent_hashes := [];
     doc_metadata := ∅; page_content := "more text" |}.

(** A document derived from D that keeps D's logical id. *)
Definition K : Document :=
  {| id_ := "d"; hash_ := "hK"; parent_hashes := ["hD"];
     doc_metadata := ∅; page_content := "Text" |}.

(** A transformer whose output has an id of its own, and one whose
    output keeps the id of its input. *)
Definition relabel (documents : list Document) : M unit (list Document) :=
  fun ts => (Ok [O], ts).

Definition keep_id (documents : list Document) : M unit (list Document) :=
  fun ts => (Ok [K], ts).

(** A transformer that raises. *)
Definition failing (documents : list Document) : M unit (list Document) :=
  fun ts => (Raise TransformerError, ts).

(** An interceptor over an empty layer whose next write is refused. *)
Definition read_only : @CachingInterceptor.t Document unit :=
  {| CachingInterceptor._artifact_layer :=
       FileSystemArtifactLayer.holding ∅ []
         [FileSystemArtifactLayer.Refused];
     CachingInterceptor._document_transformer := tt;
     CachingInterceptor.calls := [] |}.

(** An interceptor over the empty layer; one whose layer holds K. *)
Definition fresh : @CachingInterceptor.t Document unit :=
  {| CachingInterceptor._artifact_layer := empty_layer;
     CachingInterceptor._document_transformer := tt;
     CachingInterceptor.calls := [] |}.

Definition primed : @CachingInterceptor.t Document unit :=
  {| CachingInterceptor._artifact_layer :=
       FileSystemArtifactLayer.holding {["hK" := K]}
         [FileSystemArtifactLayer.record_of K] [];
     CachingInterceptor._document_transformer := tt;
     CachingInterceptor.calls := [] |}.

(** The layer that [add([D])] leaves when called on the empty layer, with
    payloads that are a document or nothing (an empty file).  The write
    of D's payload and the open of [save] go through; the write after
    them will be cut short after its open: the disk is full. *)
Definition full_disk : @FileSystemArtifactLayer.t (option Document) :=
  snd (FileSystemArtifactLayer.add Some [D]
         (FileSystemArtifactLayer.holding ∅ []
            [FileSystemArtifactLayer.Written;
             FileSystemArtifactLayer.Written;
             FileSystemArtifactLayer.Torn None OSError])).

Definition by_ids (s : gset string) : Selector.t :=
  {| Selector.ids := Some s; Selector.hashes := None;
     Selector.parent_hashes := None |}.

Definition by_hashes (s : gset string) : Selector.t :=
  {| Selector.ids := None; Selector.hashes := Some s;
     Selector.parent_hashes := None |}.

Definition by_parent_hashes (s : gset string) : Selector.t :=
  {| Selector.ids := None; Selector.hashes := None;
     Selector.parent_hashes := Some s |}.

Definition by_ids_or_parent_hashes (i p : gset string) : Selector.t :=
  {| Selector.ids := Some i; Selector.hashes := None;
     Selector.parent_hashes := Some p |}.

End Sample.

(** ** The statements under test that the code does not meet

    Each is the sentence of the specification, written over the embedding,
    so that it can be evaluated at a concrete input. *)


(** "Calling add([D]) twice with the same D is equivalent to calling it
    once": the second call raises no error and leaves the index as the
    first call left it, or it raises [DuplicateError]. *)
Definition claimed_idempotent_add {Payload : Type}
  (serialize_document : Document -> Payload) (D : Document)
  (w : @FileSystemArtifactLayer.t Payload) : Prop :=
  let once := snd (FileSystemArtifactLayer.add serialize_document [D] w) in
  let '(r, twice) := FileSystemArtifactLayer.add serialize_document [D] once in
  (r = Ok tt
   /\ InMemoryStore.artifacts (FileSystemArtifactLayer.metadata_store twice)
      = InMemoryStore.artifacts (FileSystemArtifactLayer.metadata_store once))
  \/ r = Raise DuplicateError.

(** "put(h, payloadA) followed by put(h, payloadB) with payloadA != payloadB
    fails": the second write raises and the first payload stays. *)
Definition claimed_integrity_rejection {Payload : Type} (h : string)
  (pA pB : Payload) (w : @FileSystemArtifactLayer.t Payload) : Prop :=
  pA <> pB ->
  let once := snd (FileSystemArtifactLayer.write_file h pA w) in
  let '(r, twice) := FileSystemArtifactLayer.write_file h pB once in
  (exists e, r = Raise e)
  /\ FileSystemArtifactLayer.files twice !! h = Some pA.

(** "remove(selector) is a real operation: it deletes exactly the matching
    records from the index and returns." *)
Definition claimed_remove (selector : Selector.t) (st : InMemoryStore.t)
  : Prop :=
  exists st',
    InMemoryStore.remove selector st = (Ok tt, st')
    /\ InMemoryStore.artifacts st' =
         filter (fun a => InMemoryStore.selected selector a = false)
           (InMemoryStore.artifacts st).

(** "In every state reachable through add the metadata index never
    references a content hash whose payload write failed": an index whose
    records all reference whole payloads is left so by [add]. *)
Definition claimed_index_never_dangling {Payload : Type}
  (serialize_document : Document -> Payload) (documents : list Document)
  (w : @FileSystemArtifactLayer.t Payload) : Prop :=
  FileSystemArtifactLayer.intact serialize_document w ->
  FileSystemArtifactLayer.intact serialize_document
    (snd (FileSystemArtifactLayer.add serialize_document documents w)).

(** * Properties of the metadata index *)

Section StoreFacts.
Import InMemoryStore.

Lemma index_by_snoc key l a :
  index_by key (l ++ [a]) = <[key a := a]> (index_by key l).
Proof. unfold index_by. by rewrite foldl_app. Qed.

(** A key is in the dictionary exactly when some record carries it. *)
Lemma index_by_is_Some key (l : list Artifact) k :
  is_Some (index_by key l !! k) <-> exists a, a ∈ l /\ key a = k.
Proof.
  induction l as [|a l IH] using rev_ind.
  - split.
    + intros [x Hx]. unfold index_by in Hx. simpl in Hx.
      by rewrite lookup_empty in Hx.
    + intros (a & Ha & _). by apply elem_of_nil in Ha.
  - rewrite index_by_snoc. destruct (decide (key a = k)) as [<-|Hne].
    + rewrite lookup_insert_eq. split; [intros _|by eauto].
      exists a. split; [|done].
      apply elem_of_app. right. by apply list_elem_of_singleton.
    + rewrite lookup_insert_ne by done. rewrite IH. split.
      * intros (b & Hb & Hk). exists b. split; [|done].
        apply elem_of_app. by left.
      * intros (b & Hb & Hk). exists b. split; [|done].
        apply elem_of_app in Hb as [Hb|Hb]; [done|].
        apply list_elem_of_singleton in Hb. by subst b.
Qed.

Lemma contains_true (d : gmap string Artifact) k :
  contains d k = true <-> is_Some (d !! k).
Proof.
  unfold contains. destruct (d !! k) as [a|].
  - split; [by eauto|done].
  - split; [done|]. by intros [a Ha].
Qed.

Lemma init_consistent data : consistent (init data).
Proof. by split. Qed.

Lemma add_consistent artifact st :
  consistent st -> consistent (snd (add artifact st)).
Proof.
  intros [Hu Hi]. split; simpl.
  - by rewrite index_by_snoc, Hu.
  - by rewrite index_by_snoc, Hi.
Qed.

Lemma reachable_consistent st : reachable st -> consistent st.
Proof.
  induction 1 as [data|st artifact _ IH].
  - apply init_consistent.
  - by apply add_consistent.
Qed.

(** What [id_ in self.artifact_ids] answers on a store built through the
    class. *)
Lemma contains_artifact_ids st k :
  reachable st ->
  contains (artifact_ids st) k = true
  <-> exists a, a ∈ artifacts st /\ custom_id a = k.
Proof.
  intros [_ Hi]%reachable_consistent.
  by rewrite contains_true, Hi, index_by_is_Some.
Qed.

(** ** [select] *)

Lemma select_loop_app s l1 l2 :
  select_loop s (l1 ++ l2) =
    match select_loop s l1 with
    | (ys, None) => let '(zs, e) := select_loop s l2 in (ys ++ zs, e)
    | (ys, Some e) => (ys, Some e)
    end.
Proof.
  induction l1 as [|a l1 IH]; simpl.
  - by destruct (select_loop s l2).
  - destruct (select_test s a) as [[|]|e]; [|done|done].
    rewrite IH. destruct (select_loop s l1) as [ys [e|]]; [done|].
    by destruct (select_loop s l2).
Qed.

(** The only exception [select] raises by itself is the [TypeError] of
    the third test. *)
Lemma select_test_raises s a e : select_test s a = Raise e -> e = TypeError.
Proof.
  unfold select_test. repeat case_match; congruence.
Qed.

Lemma select_loop_raises s l e :
  snd (select_loop s l) = Some e -> e = TypeError.
Proof.
  induction l as [|a l IH]; simpl; [done|].
  destruct (select_test s a) as [[|]|e'] eqn:Ht.
  - destruct (select_loop s l) as [ys o]. simpl in *. exact IH.
  - exact IH.
  - simpl. intros [= <-]. by eapply select_test_raises.
Qed.

Lemma select_test_total s a ph :
  Selector.parent_hashes s = Some ph -> select_test s a = Ok (selected s a).
Proof.
  intros Hph. unfold selected, select_test. rewrite Hph.
  repeat case_match; congruence.
Qed.

(** With a [parent_hashes] clause, [select] is the scan that yields the
    uuid of every record passing the test, in storage order. *)
Lemma select_loop_total s l ph :
  Selector.parent_hashes s = Some ph ->
  select_loop s l =
    (uuid <$> filter (fun a => selected s a = true) l, None).
Proof.
  intros Hph. induction l as [|a l IH]; simpl; [done|].
  rewrite (select_test_total s a ph Hph), IH.
  destruct (selected s a) eqn:Hs.
  - by rewrite filter_cons_True.
  - rewrite filter_cons_False; [done|]. by rewrite Hs.
Qed.

(** The selector [{parent_hashes: {h}}] picks the records that list [h]
    among their parents. *)
Lemma selected_children_of h a :
  selected (FileSystemArtifactLayer.children_of h) a = true
  <-> h ∈ parent_uuids a.
Proof.
  unfold selected, select_test. simpl.
  destruct (parent_uuids a) as [|p ps] eqn:Hp.
  - split; [done|]. intros Hin. by apply elem_of_nil in Hin.
  - rewrite bool_decide_eq_true. split.
    + intros Hne. apply set_choose_L in Hne as [x Hx].
      apply elem_of_intersection in Hx as [Hx1 Hx2].
      apply elem_of_singleton in Hx2. subst x.
      by apply elem_of_list_to_set in Hx1.
    + intros Hin Hempty.
      apply (not_elem_of_empty (C := gset string) h). rewrite <- Hempty.
      apply elem_of_intersection. split.
      * by apply elem_of_list_to_set.
      * by apply elem_of_singleton.
Qed.

Lemma select_children_of h st :
  select (FileSystemArtifactLayer.children_of h) st
  = (uuid <$> filter (fun a => h ∈ parent_uuids a) (artifacts st), None).
Proof.
  unfold select.
  rewrite (select_loop_total _ _ {[h]}) by done.
  f_equal. f_equal. apply list_filter_iff. intros a.
  apply selected_children_of.
Qed.

End StoreFacts.

(** C9. On every store built through the class, [exists_by_id] answers with
    one boolean per input id, in input order: the i-th answer is true exactly
    when some stored artifact has the i-th id as its [custom_id].  The
    answers do not depend on the order in which the records are stored. *)
Theorem exists_by_id_order_preserving (st : InMemoryStore.t)
  (ids : list string) :
  InMemoryStore.reachable st ->
  length (InMemoryStore.exists_by_id ids st) = length ids
  /\ (forall i id, ids !! i = Some id ->
        exists b, InMemoryStore.exists_by_id ids st !! i = Some b
          /\ (b = true <->
              exists a, a ∈ InMemoryStore.artifacts st /\ custom_id a = id))
  /\ (forall st', InMemoryStore.reachable st' ->
        InMemoryStore.artifacts st' ≡ₚ InMemoryStore.artifacts st ->
        InMemoryStore.exists_by_id ids st' = InMemoryStore.exists_by_id ids st).
Proof.
  intros Hst. unfold InMemoryStore.exists_by_id. split; [|split].
  - apply length_fmap.
  - intros i k Hi. rewrite list_lookup_fmap, Hi. simpl.
    eexists. split; [done|]. by apply contains_artifact_ids.
  - intros st' Hst' Hperm. apply list_fmap_ext. intros _ k _.
    destruct (InMemoryStore.contains (InMemoryStore.artifact_ids st) k) eqn:Hk.
    + apply contains_artifact_ids in Hk as (a & Ha & Hid); [|done].
      apply contains_artifact_ids; [done|].
      exists a. split; [|done]. by rewrite Hperm.
    + destruct (InMemoryStore.contains (InMemoryStore.artifact_ids st') k)
        eqn:Hk'; [|done].
      apply contains_artifact_ids in Hk' as (a & Ha & Hid); [|done].
      rewrite <- Hk. symmetry. apply contains_artifact_ids; [done|].
      exists a. split; [|done]. by rewrite <- Hperm.
Qed.

(** C9 on two stores that hold A and B in opposite orders. *)
Lemma exists_by_id_order_preserving_witness :
  InMemoryStore.exists_by_id ["y"; "z"; "x"]
    (InMemoryStore.init [Sample.A; Sample.B])
  = InMemoryStore.exists_by_id ["y"; "z"; "x"]
      (InMemoryStore.init [Sample.B; Sample.A]).
Proof.
  apply (exists_by_id_order_preserving
           (InMemoryStore.init [Sample.B; Sample.A]) ["y"; "z"; "x"]).
  - apply InMemoryStore.reach_init.
  - apply InMemoryStore.reach_init.
  - simpl. apply Permutation_swap.
Defined.

(** C4. [exists_by_uuid] looks its arguments up in the dictionary keyed by
    [custom_id], so it answers exactly as [exists_by_id] does.  For the
    store holding artifact A alone (logical id "x", hash "hA") it denies the
    stored hash "hA" and affirms "x", which is the hash of no artifact. *)
Theorem exists_by_uuid_consults_artifact_ids :
  (forall uuids st,
     InMemoryStore.exists_by_uuid uuids st
     = InMemoryStore.exists_by_id uuids st)
  /\ Sample.A ∈ InMemoryStore.artifacts (InMemoryStore.init [Sample.A])
  /\ uuid Sample.A = "hA"
  /\ InMemoryStore.exists_by_uuid ["hA"] (InMemoryStore.init [Sample.A])
     = [false]
  /\ InMemoryStore.exists_by_uuid ["x"] (InMemoryStore.init [Sample.A])
     = [true]
  /\ (forall a, a ∈ InMemoryStore.artifacts (InMemoryStore.init [Sample.A]) ->
        uuid a <> "x").
Proof.
  split; [done|]. split; [apply list_elem_of_singleton; done|].
  split; [done|]. split; [by vm_compute|]. split; [by vm_compute|].
  intros a Ha. apply list_elem_of_singleton in Ha. by subst a.
Qed.

(** C2. The [ids] clause of [select] compares the artifact's [uuid], not
    its [custom_id].  With A (id "x", hash "hA") and B (parent "hA", hash
    "hB") stored, the selector [{ids: {"x"}}] yields nothing on A alone and
    runs into the [TypeError] of the third test once B is stored; the
    selector with both clauses yields B's hash only.  The [parent_hashes]
    clause alone yields B's hash, and an [ids] clause naming A's hash
    yields A. *)
Theorem select_ids_clause_compares_uuid :
  InMemoryStore.select (Sample.by_ids {["x"]})
    (InMemoryStore.init [Sample.A]) = ([], None)
  /\ InMemoryStore.select (Sample.by_ids {["x"]})
       (InMemoryStore.init [Sample.A; Sample.B]) = ([], Some TypeError)
  /\ InMemoryStore.select (Sample.by_ids_or_parent_hashes {["x"]} {["hA"]})
       (InMemoryStore.init [Sample.A; Sample.B]) = (["hB"], None)
  /\ InMemoryStore.select (Sample.by_parent_hashes {["hA"]})
       (InMemoryStore.init [Sample.A; Sample.B]) = (["hB"], None)
  /\ InMemoryStore.select (Sample.by_ids {["hA"]})
       (InMemoryStore.init [Sample.A]) = (["hA"], None).
Proof. repeat split; by vm_compute. Qed.

(** C10. [InMemoryStore.add] returns normally on every store and every
    artifact.  It appends the record to the list, keeping all earlier
    records, and points both dictionaries at the new record, so that
    [get_by_uuids] and the existence check see the record added last.  A
    later [select] scans the list and yields the new record's uuid after
    whatever the earlier records yield: adding A to a store that holds A
    makes the selector [{hashes: {"hA"}}] yield "hA" twice. *)
Theorem add_appends_and_repoints :
  (forall (st : InMemoryStore.t) (a : Artifact),
     exists st',
       InMemoryStore.add a st = (Ok tt, st')
       /\ InMemoryStore.artifacts st' = InMemoryStore.artifacts st ++ [a]
       /\ InMemoryStore.artifact_uuid st'
          = <[uuid a := a]> (InMemoryStore.artifact_uuid st)
       /\ InMemoryStore.artifact_ids st'
          = <[custom_id a := a]> (InMemoryStore.artifact_ids st)
       /\ InMemoryStore.artifact_uuid st' !! uuid a = Some a
       /\ InMemoryStore.artifact_ids st' !! custom_id a = Some a
       /\ InMemoryStore.get_by_uuids [uuid a] st' = Ok [a]
       /\ InMemoryStore.exists_by_id [custom_id a] st' = [true]
       /\ (forall s ys, InMemoryStore.select s st = (ys, None) ->
             InMemoryStore.select s st' =
               match InMemoryStore.select_test s a with
               | Ok true => (ys ++ [uuid a], None)
               | Ok false => (ys, None)
               | Raise e => (ys, Some e)
               end))
  /\ InMemoryStore.select (Sample.by_hashes {["hA"]})
       (snd (InMemoryStore.add Sample.A (InMemoryStore.init [Sample.A])))
     = (["hA"; "hA"], None).
Proof.
  split; [|by vm_compute].
  intros st a. eexists. split; [reflexivity|]. simpl.
  split; [done|]. split; [done|]. split; [done|].
  split; [apply lookup_insert_eq|]. split; [apply lookup_insert_eq|].
  split; [by rewrite lookup_insert_eq|].
  split.
  { unfold InMemoryStore.exists_by_id, InMemoryStore.contains. simpl.
    by rewrite lookup_insert_eq. }
  intros s ys Hsel. unfold InMemoryStore.select in *. simpl.
  rewrite select_loop_app, Hsel. simpl.
  destruct (InMemoryStore.select_test s a) as [[|]|e]; simpl;
    by rewrite ?app_nil_r.
Qed.

(** C7, as the code has it.  [InMemoryStore.remove] never returns: it
    raises, with [NotImplementedError] from [remove_by_uuids] whenever the
    scan of [select] completes (and with the scan's own [TypeError]
    otherwise), and it leaves the store as it found it.  No record, matched
    by the selector or not, is deleted. *)
Theorem remove_raises_and_keeps_store (selector : Selector.t)
  (st : InMemoryStore.t) :
  snd (InMemoryStore.remove selector st) = st
  /\ exists e,
       fst (InMemoryStore.remove selector st) = Raise e
       /\ (e = NotImplementedError \/ e = TypeError)
       /\ (snd (InMemoryStore.select selector st) = None ->
           e = NotImplementedError).
Proof.
  unfold InMemoryStore.remove, InMemoryStore.select.
  pose proof (select_loop_raises selector (InMemoryStore.artifacts st)) as Hr.
  destruct (InMemoryStore.select_loop selector (InMemoryStore.artifacts st))
    as [ys [e|]]; simpl in *.
  - split; [done|]. exists e. split; [done|]. split; [|done].
    right. by apply Hr.
  - split; [done|]. exists NotImplementedError. by eauto.
Qed.

(** C7, counterexample.  On the store holding A alone, the selector
    [{hashes: {"hA"}}] matches A; [remove] does not return and A is still
    stored. *)
Lemma claimed_remove_fails :
  ~ claimed_remove (Sample.by_hashes {["hA"]})
      (InMemoryStore.init [Sample.A]).
Proof. intros (st' & Hrun & _). by vm_compute in Hrun. Qed.

(** * Properties of the file-system layer *)

Section LayerFacts.
Context {Payload : Type}.
Variable serialize_document : Document -> Payload.
Variable deserialize_document : Payload -> option Document.

Local Abbreviation Layer := (@FileSystemArtifactLayer.t Payload).
Local Abbreviation add_one :=
  (FileSystemArtifactLayer.add_one serialize_document).
Local Abbreviation payloads_of :=
  (FileSystemArtifactLayer.payloads_of serialize_document).
Local Abbreviation records_of := FileSystemArtifactLayer.records_of.
Local Abbreviation Torn := FileSystemArtifactLayer.Torn.
Local Abbreviation Refused := FileSystemArtifactLayer.Refused.
Local Abbreviation Written := FileSystemArtifactLayer.Written.

Lemma records_of_artifacts documents st :
  InMemoryStore.artifacts (records_of documents st)
  = InMemoryStore.artifacts st
    ++ (FileSystemArtifactLayer.record_of <$> documents).
Proof.
  revert st. induction documents as [|d documents IH]; intros st; simpl.
  - by rewrite app_nil_r.
  - unfold FileSystemArtifactLayer.records_of in *. simpl.
    rewrite IH. simpl. by rewrite <- app_assoc.
Qed.

Lemma payloads_of_is_Some documents (f : gmap string Payload) k :
  is_Some (payloads_of documents f !! k)
  <-> is_Some (f !! k) \/ k ∈ hash_ <$> documents.
Proof.
  revert f. induction documents as [|d documents IH]; intros f; simpl.
  - split; [by left|]. intros [?|Hk]; [done|]. by apply elem_of_nil in Hk.
  - unfold FileSystemArtifactLayer.payloads_of in *. simpl. rewrite IH.
    rewrite elem_of_cons. destruct (decide (hash_ d = k)) as [Heq|Hne].
    + rewrite Heq, lookup_insert_eq. split; intros _; [right; by left|].
      left. by eauto.
    + rewrite lookup_insert_ne by done. split.
      * intros [Hf|Hk]; [by left|]. right. by right.
      * intros [Hf|[Hk|Hk]]; [by left|congruence|by right].
Qed.

Lemma payloads_of_snoc documents d (f : gmap string Payload) :
  payloads_of (documents ++ [d]) f
  = <[hash_ d := serialize_document d]> (payloads_of documents f).
Proof. unfold FileSystemArtifactLayer.payloads_of. by rewrite foldl_app. Qed.

(** A hash written by the loop holds the payload of a document of the
    batch with that hash (the last one). *)
Lemma payloads_of_lookup documents (f : gmap string Payload) k :
  k ∈ hash_ <$> documents ->
  exists d, d ∈ documents /\ hash_ d = k
    /\ payloads_of documents f !! k = Some (serialize_document d).
Proof.
  induction documents as [|d documents IH] using rev_ind; intros Hk.
  - by apply elem_of_nil in Hk.
  - rewrite payloads_of_snoc. destruct (decide (hash_ d = k)) as [Heq|Hne].
    + exists d. split; [|split; [done|]].
      * apply elem_of_app. right. by apply list_elem_of_singleton.
      * by rewrite <- Heq, lookup_insert_eq.
    + rewrite fmap_app in Hk. apply elem_of_app in Hk as [Hk|Hk].
      * destruct (IH Hk) as (d' & Hd' & Hh & Hl). exists d'.
        split; [apply elem_of_app; by left|]. split; [done|].
        by rewrite lookup_insert_ne.
      * apply list_elem_of_singleton in Hk. by subst k.
Qed.

(** A file that is not named by a hash of the batch is left alone. *)
Lemma payloads_of_lookup_ne documents (f : gmap string Payload) k :
  k ∉ hash_ <$> documents -> payloads_of documents f !! k = f !! k.
Proof.
  induction documents as [|d documents IH] using rev_ind; intros Hk; [done|].
  rewrite payloads_of_snoc. rewrite fmap_app in Hk.
  rewrite lookup_insert_ne.
  - apply IH. intros Hin. apply Hk, elem_of_app. by left.
  - intros Heq. apply Hk, elem_of_app. right. rewrite <- Heq.
    by apply list_elem_of_singleton.
Qed.


Lemma elem_of_tail {A} (x : A) (l : list A) : x ∈ tail l -> x ∈ l.
Proof. destruct l as [|y l]; [done|]. simpl. intros Hx. by right. Qed.

(** One turn of the loop of [add], by what the script holds for its
    write: refused, the turn raises and changes nothing; cut short, it
    raises and leaves the remains in the file, no record being appended;
    otherwise the payload is in place and then the record is appended. *)
Lemma add_one_run d (w : Layer) :
  add_one d w
  = match FileSystemArtifactLayer.faults w with
    | FileSystemArtifactLayer.Refused :: fs =>
        (Raise OSError, FileSystemArtifactLayer.set_faults fs w)
    | FileSystemArtifactLayer.Torn rest e :: fs =>
        (Raise e,
         {| FileSystemArtifactLayer.files :=
              <[hash_ d := rest]> (FileSystemArtifactLayer.files w);
            FileSystemArtifactLayer.metadata_json :=
              FileSystemArtifactLayer.metadata_json w;
            FileSystemArtifactLayer.metadata_store :=
              FileSystemArtifactLayer.metadata_store w;
            FileSystemArtifactLayer.faults := fs |})
    | fs =>
        (Ok tt,
         {| FileSystemArtifactLayer.files :=
              payloads_of [d] (FileSystemArtifactLayer.files w);
            FileSystemArtifactLayer.metadata_json :=
              FileSystemArtifactLayer.metadata_json w;
            FileSystemArtifactLayer.metadata_store :=
              records_of [d] (FileSystemArtifactLayer.metadata_store w);
            FileSystemArtifactLayer.faults := tail fs |})
    end.
Proof.
  unfold FileSystemArtifactLayer.add_one, FileSystemArtifactLayer.write_file,
    FileSystemArtifactLayer.open_w, bind, zoom.
  destruct (FileSystemArtifactLayer.faults w) as [|[| |rest e] fs] eqn:Hf;
    unfold FileSystemArtifactLayer.set_metadata_store,
      FileSystemArtifactLayer.set_files, FileSystemArtifactLayer.set_faults;
    simpl; rewrite ?Hf; reflexivity.
Qed.

(** The step of C8: a turn of the loop either returns, with the payload
    written whole under the document's hash and the record appended, or
    raises, with nothing appended. *)
Lemma add_one_cases d (w : Layer) :
  (fst (add_one d w) = Ok tt
   /\ FileSystemArtifactLayer.files (snd (add_one d w))
      = <[hash_ d := serialize_document d]> (FileSystemArtifactLayer.files w)
   /\ FileSystemArtifactLayer.metadata_store (snd (add_one d w))
      = snd (InMemoryStore.add (FileSystemArtifactLayer.record_of d)
               (FileSystemArtifactLayer.metadata_store w)))
  \/ ((exists e, fst (add_one d w) = Raise e)
      /\ FileSystemArtifactLayer.metadata_store (snd (add_one d w))
         = FileSystemArtifactLayer.metadata_store w).
Proof.
  rewrite add_one_run.
  destruct (FileSystemArtifactLayer.faults w) as [|[| |rest e] fs]; simpl;
    by eauto.
Qed.

(** The loop of [add] stops at the first write that fails.  The documents
    before it are written and recorded; the others are not recorded, and
    not written either, but for what a write cut short leaves in the file
    of the document it stopped at. *)
Lemma add_loop_cases documents (w : Layer) :
  exists written rest,
    documents = written ++ rest
    /\ FileSystemArtifactLayer.metadata_store
         (snd (for_each documents add_one w))
       = records_of written (FileSystemArtifactLayer.metadata_store w)
    /\ FileSystemArtifactLayer.metadata_json
         (snd (for_each documents add_one w))
       = FileSystemArtifactLayer.metadata_json w
    /\ ((rest = []
         /\ fst (for_each documents add_one w) = Ok tt
         /\ FileSystemArtifactLayer.files (snd (for_each documents add_one w))
            = payloads_of written (FileSystemArtifactLayer.files w))
        \/ (rest <> []
            /\ Refused ∈ FileSystemArtifactLayer.faults w
            /\ fst (for_each documents add_one w) = Raise OSError
            /\ FileSystemArtifactLayer.files
                 (snd (for_each documents add_one w))
               = payloads_of written (FileSystemArtifactLayer.files w))
        \/ (exists d rest' torn e,
              rest = d :: rest'
              /\ Torn torn e ∈ FileSystemArtifactLayer.faults w
              /\ fst (for_each documents add_one w) = Raise e
              /\ FileSystemArtifactLayer.files
                   (snd (for_each documents add_one w))
                 = <[hash_ d := torn]>
                     (payloads_of written (FileSystemArtifactLayer.files w)))).
Proof.
  revert w. induction documents as [|d documents IH]; intros w.
  - exists [], []. simpl. by eauto 10.
  - simpl. unfold bind. rewrite add_one_run.
    destruct (FileSystemArtifactLayer.faults w) as [|[| |torn e] fs] eqn:Hf.
    + match goal with
      | |- context [for_each documents _ ?w1] =>
          destruct (IH w1) as (written & rest & -> & Hs & Hj & Hres)
      end.
      exists (d :: written), rest. simpl in *.
      split; [done|]. split; [exact Hs|]. split; [exact Hj|].
      destruct Hres as [(-> & Hr & Hfl)|[(_ & Hin & _)|(? & ? & ? & ? & _ & Hin & _)]].
      * left. by eauto.
      * by apply elem_of_nil in Hin.
      * by apply elem_of_nil in Hin.
    + match goal with
      | |- context [for_each documents _ ?w1] =>
          destruct (IH w1) as (written & rest & -> & Hs & Hj & Hres)
      end.
      exists (d :: written), rest. simpl in *.
      split; [done|]. split; [exact Hs|]. split; [exact Hj|].
      destruct Hres as [(-> & Hr & Hfl)|[(Hne & Hin & Hr & Hfl)
                                        |(d' & rest' & torn & e & -> & Hin & Hr & Hfl)]].
      * left. by eauto.
      * right. left. split; [done|]. split; [by right|]. by split.
      * right. right. exists d', rest', torn, e.
        split; [done|]. split; [by right|]. by split.
    + exists [], (d :: documents). simpl.
      split; [done|]. split; [done|]. split; [done|].
      right. left. split; [done|]. split; [by left|]. by split.
    + exists [], (d :: documents). simpl.
      split; [done|]. split; [done|]. split; [done|].
      right. right. exists d, documents, torn, e.
      split; [done|]. split; [by left|]. by split.
Qed.

(** [save] never returns.  Refused at the open, it raises [OSError] and
    leaves [metadata.json] alone; otherwise the open has emptied the file
    when [json.dump] raises [AttributeError].  Neither the payload files
    nor the in-memory index are touched. *)
Lemma save_cases (w : Layer) :
  FileSystemArtifactLayer.files (snd (FileSystemArtifactLayer.save w))
  = FileSystemArtifactLayer.files w
  /\ FileSystemArtifactLayer.metadata_store
       (snd (FileSystemArtifactLayer.save w))
     = FileSystemArtifactLayer.metadata_store w
  /\ ((exists fs,
         FileSystemArtifactLayer.faults w = Refused :: fs
         /\ FileSystemArtifactLayer.save w
            = (Raise OSError, FileSystemArtifactLayer.set_faults fs w))
      \/ ((forall fs, FileSystemArtifactLayer.faults w <> Refused :: fs)
          /\ fst (FileSystemArtifactLayer.save w) = Raise AttributeError
          /\ FileSystemArtifactLayer.metadata_json
               (snd (FileSystemArtifactLayer.save w))
             = FileSystemArtifactLayer.Truncated
          /\ FileSystemArtifactLayer.faults
               (snd (FileSystemArtifactLayer.save w))
             = tail (FileSystemArtifactLayer.faults w))).
Proof.
  unfold FileSystemArtifactLayer.save, FileSystemArtifactLayer.json_dump,
    FileSystemArtifactLayer.open_w, bind, raise.
  destruct (FileSystemArtifactLayer.faults w) as [|[| |rest e] fs] eqn:Hf;
    simpl; rewrite ?Hf; split; try done; split; try done.
  - right. by eauto.
  - right. by eauto.
  - left. by eauto.
  - right. by eauto.
Qed.

(** [add] is its loop followed by [save]: the payload files and the index
    are as the loop leaves them, a failure of the loop is the failure of
    the call, and since [save] never returns the call raises in every
    case. *)
Lemma add_state documents (w : Layer) :
  FileSystemArtifactLayer.files
    (snd (FileSystemArtifactLayer.add serialize_document documents w))
  = FileSystemArtifactLayer.files (snd (for_each documents add_one w))
  /\ FileSystemArtifactLayer.metadata_store
       (snd (FileSystemArtifactLayer.add serialize_document documents w))
     = FileSystemArtifactLayer.metadata_store
         (snd (for_each documents add_one w))
  /\ (forall e, fst (for_each documents add_one w) = Raise e ->
        FileSystemArtifactLayer.add serialize_document documents w
        = for_each documents add_one w)
  /\ exists e,
       fst (FileSystemArtifactLayer.add serialize_document documents w)
       = Raise e.
Proof.
  unfold FileSystemArtifactLayer.add, bind.
  destruct (for_each documents add_one w) as [[[]|e] w1]; simpl.
  - destruct (save_cases w1) as (Hf & Hs & Hr).
    split; [done|]. split; [done|]. split; [by intros e [=]|].
    destruct Hr as [(fs & _ & Hr)|(_ & Hr & _)]; [rewrite Hr|]; by eauto.
  - split; [done|]. split; [done|]. split; [done|]. by eauto.
Qed.

(** C8, as the code has it.  In a turn of the loop of [add] the payload
    is written before the record is appended, and a turn whose write fails
    appends nothing; the first failed write ends the call.  So the records
    a call appends are those of a prefix [written] of the input, all of it
    when every write goes through, and the payload files are those of
    [written], except that a write cut short after its open leaves its
    remains under the hash of the document the call stopped at.  When no
    write is cut short (writes go through or are refused at the open),
    the file of every recorded document holds, whole, the payload of the
    last recorded document with that hash, and an index whose records all
    reference whole payloads stays so. *)
Theorem add_writes_payload_before_record (documents : list Document)
  (w : Layer) :
  (forall d (w1 : Layer),
     (fst (add_one d w1) = Ok tt
      /\ FileSystemArtifactLayer.files (snd (add_one d w1))
         = <[hash_ d := serialize_document d]>
             (FileSystemArtifactLayer.files w1)
      /\ FileSystemArtifactLayer.metadata_store (snd (add_one d w1))
         = snd (InMemoryStore.add (FileSystemArtifactLayer.record_of d)
                  (FileSystemArtifactLayer.metadata_store w1)))
     \/ ((exists e, fst (add_one d w1) = Raise e)
         /\ FileSystemArtifactLayer.metadata_store (snd (add_one d w1))
            = FileSystemArtifactLayer.metadata_store w1))
  /\ exists written rest,
       documents = written ++ rest
       /\ InMemoryStore.artifacts
            (FileSystemArtifactLayer.metadata_store
               (snd (FileSystemArtifactLayer.add serialize_document
                       documents w)))
          = InMemoryStore.artifacts (FileSystemArtifactLayer.metadata_store w)
            ++ (FileSystemArtifactLayer.record_of <$> written)
       /\ ((forall o, o ∈ FileSystemArtifactLayer.faults w -> o = Written) ->
           rest = [])
       /\ (FileSystemArtifactLayer.files
             (snd (FileSystemArtifactLayer.add serialize_document documents w))
           = payloads_of written (FileSystemArtifactLayer.files w)
           \/ exists d rest' torn e,
                rest = d :: rest'
                /\ Torn torn e ∈ FileSystemArtifactLayer.faults w
                /\ fst (FileSystemArtifactLayer.add serialize_document
                          documents w) = Raise e
                /\ FileSystemArtifactLayer.files
                     (snd (FileSystemArtifactLayer.add serialize_document
                             documents w))
                   = <[hash_ d := torn]>
                       (payloads_of written (FileSystemArtifactLayer.files w)))
       /\ ((forall torn e, Torn torn e ∉ FileSystemArtifactLayer.faults w) ->
           (forall d, d ∈ written ->
              exists d', d' ∈ written /\ hash_ d' = hash_ d
                /\ FileSystemArtifactLayer.files
                     (snd (FileSystemArtifactLayer.add serialize_document
                             documents w)) !! hash_ d
                   = Some (serialize_document d'))
           /\ (FileSystemArtifactLayer.intact serialize_document w ->
               FileSystemArtifactLayer.intact serialize_document
                 (snd (FileSystemArtifactLayer.add serialize_document
                         documents w)))).
Proof.
  split; [apply add_one_cases|].
  destruct (add_loop_cases documents w)
    as (written & rest & Hsplit & Hs & Hj & Hres).
  destruct (add_state documents w) as (Hf' & Hs' & Hfail & _).
  exists written, rest. split; [done|].
  split; [by rewrite Hs', Hs, records_of_artifacts|].
  split.
  { intros Hall.
    destruct Hres as [(-> & _)|[(_ & Hin & _)|(? & ? & ? & ? & _ & Hin & _)]];
      [done| |]; by apply Hall in Hin. }
  split.
  { destruct Hres as [(_ & _ & Hfl)|[(_ & _ & _ & Hfl)
                                    |(d & rest' & torn & e & -> & Hin & Hr & Hfl)]].
    - left. by rewrite Hf'.
    - left. by rewrite Hf'.
    - right. exists d, rest', torn, e. rewrite Hf', (Hfail e Hr). by eauto. }
  intros Hwhole.
  assert (FileSystemArtifactLayer.files
            (snd (FileSystemArtifactLayer.add serialize_document documents w))
          = payloads_of written (FileSystemArtifactLayer.files w)) as Hfl.
  { rewrite Hf'.
    destruct Hres as [(_ & _ & Hfl)|[(_ & _ & _ & Hfl)
                                    |(? & ? & torn & e & _ & Hin & _)]];
      [done|done|]. by destruct (Hwhole torn e). }
  split.
  - intros d Hd. rewrite Hfl. apply payloads_of_lookup.
    by apply list_elem_of_fmap_2.
  - intros Hintact a Ha. unfold FileSystemArtifactLayer.holds_payload.
    rewrite Hfl. rewrite Hs', Hs, records_of_artifacts in Ha.
    destruct (decide (uuid a ∈ hash_ <$> written)) as [Hin|Hout].
    + destruct (payloads_of_lookup written (FileSystemArtifactLayer.files w)
                  (uuid a) Hin) as (d' & _ & Hh & Hl).
      by exists d'.
    + rewrite payloads_of_lookup_ne by done.
      apply elem_of_app in Ha as [Ha|Ha]; [by apply Hintact|].
      apply list_elem_of_fmap in Ha as (d & -> & Hd). destruct Hout.
      change (hash_ d ∈ hash_ <$> written). by apply list_elem_of_fmap_2.
Qed.

(** ** Runs without write faults *)

Lemma open_w_quiet (w : Layer) :
  FileSystemArtifactLayer.faults w = [] ->
  FileSystemArtifactLayer.open_w w = (Ok Written, w).
Proof. intros Hq. unfold FileSystemArtifactLayer.open_w. by rewrite Hq. Qed.

Lemma write_file_quiet name payload (w : Layer) :
  FileSystemArtifactLayer.faults w = [] ->
  FileSystemArtifactLayer.write_file name payload w
  = (Ok tt,
     FileSystemArtifactLayer.set_files
       (<[name := payload]> (FileSystemArtifactLayer.files w)) w).
Proof.
  intros Hq. unfold FileSystemArtifactLayer.write_file, bind.
  by rewrite open_w_quiet.
Qed.

Lemma add_loop_quiet documents (w : Layer) :
  FileSystemArtifactLayer.faults w = [] ->
  for_each documents add_one w
  = (Ok tt,
     {| FileSystemArtifactLayer.files :=
          payloads_of documents (FileSystemArtifactLayer.files w);
        FileSystemArtifactLayer.metadata_json :=
          FileSystemArtifactLayer.metadata_json w;
        FileSystemArtifactLayer.metadata_store :=
          records_of documents (FileSystemArtifactLayer.metadata_store w);
        FileSystemArtifactLayer.faults := [] |}).
Proof.
  revert w. induction documents as [|d documents IH]; intros w Hq.
  - destruct w. simpl in *. by subst.
  - simpl. unfold bind. rewrite add_one_run, Hq. by rewrite IH.
Qed.

(** With no write fault ahead, [add] writes every payload, appends every
    record, empties [metadata.json] and raises the [AttributeError] of
    [save]. *)
Lemma add_quiet documents (w : Layer) :
  FileSystemArtifactLayer.faults w = [] ->
  FileSystemArtifactLayer.add serialize_document documents w
  = (Raise AttributeError,
     {| FileSystemArtifactLayer.files :=
          payloads_of documents (FileSystemArtifactLayer.files w);
        FileSystemArtifactLayer.metadata_json :=
          FileSystemArtifactLayer.Truncated;
        FileSystemArtifactLayer.metadata_store :=
          records_of documents (FileSystemArtifactLayer.metadata_store w);
        FileSystemArtifactLayer.faults := [] |}).
Proof.
  intros Hq. unfold FileSystemArtifactLayer.add, bind.
  rewrite add_loop_quiet by done.
  unfold FileSystemArtifactLayer.save, bind. by rewrite open_w_quiet.
Qed.

(** C5, as the code has it.  With no write fault ahead, a second
    [add([D])] is not a no-op: it rewrites the same payload file and leaves
    both dictionaries, hence every existence answer, as the first call
    left them, but it appends the record of D once more.  The second call
    ends as the first did, never in a [DuplicateError], and leaves the
    layer ready for a third call that repeats it.  (How a call ends is
    decided by [save], after the loop.) *)
Theorem add_twice_appends_again (D : Document) (w : Layer) :
  FileSystemArtifactLayer.faults w = [] ->
  exists once twice,
    once = snd (FileSystemArtifactLayer.add serialize_document [D] w)
    /\ twice = snd (FileSystemArtifactLayer.add serialize_document [D] once)
    /\ FileSystemArtifactLayer.files once !! hash_ D
       = Some (serialize_document D)
    /\ FileSystemArtifactLayer.files twice
       = FileSystemArtifactLayer.files once
    /\ InMemoryStore.artifact_uuid
         (FileSystemArtifactLayer.metadata_store twice)
       = InMemoryStore.artifact_uuid
           (FileSystemArtifactLayer.metadata_store once)
    /\ InMemoryStore.artifact_ids
         (FileSystemArtifactLayer.metadata_store twice)
       = InMemoryStore.artifact_ids
           (FileSystemArtifactLayer.metadata_store once)
    /\ (forall ids,
          FileSystemArtifactLayer.exists_by_id ids twice
          = FileSystemArtifactLayer.exists_by_id ids once)
    /\ InMemoryStore.artifacts (FileSystemArtifactLayer.metadata_store once)
       = InMemoryStore.artifacts (FileSystemArtifactLayer.metadata_store w)
         ++ [FileSystemArtifactLayer.record_of D]
    /\ InMemoryStore.artifacts (FileSystemArtifactLayer.metadata_store twice)
       = InMemoryStore.artifacts (FileSystemArtifactLayer.metadata_store once)
         ++ [FileSystemArtifactLayer.record_of D]
    /\ fst (FileSystemArtifactLayer.add serialize_document [D] once)
       = fst (FileSystemArtifactLayer.add serialize_document [D] w)
    /\ fst (FileSystemArtifactLayer.add serialize_document [D] once)
       <> Raise DuplicateError
    /\ FileSystemArtifactLayer.faults twice = [].
Proof.
  intros Hq. eexists. eexists.
  split; [reflexivity|]. split; [reflexivity|].
  rewrite !(add_quiet [D] w Hq). cbn [snd].
  rewrite !add_quiet by done. simpl.
  assert (forall (m : gmap string Artifact) k a,
            <[k := a]> (<[k := a]> m) = <[k := a]> m) as Hii.
  { intros m k a. apply insert_insert_eq. }
  split; [apply lookup_insert_eq|].
  split; [apply insert_insert_eq|]. split; [apply Hii|].
  split; [apply Hii|]. split.
  { intros ids. unfold FileSystemArtifactLayer.exists_by_id,
      InMemoryStore.exists_by_id. simpl. by rewrite Hii. }
  done.
Qed.

(** C6, as the code has it.  When the writes go through, storing [pB]
    under a name that holds [pA] returns and replaces the content: the
    last write wins, whether or not the payloads differ.  No other file
    changes, and writing the same payload again changes nothing. *)
Theorem write_file_overwrites (h : string) (pA pB : Payload) (w : Layer) :
  FileSystemArtifactLayer.faults w = [] ->
  exists once twice,
    FileSystemArtifactLayer.write_file h pA w = (Ok tt, once)
    /\ FileSystemArtifactLayer.files once !! h = Some pA
    /\ FileSystemArtifactLayer.write_file h pB once = (Ok tt, twice)
    /\ FileSystemArtifactLayer.files twice !! h = Some pB
    /\ (forall k, k <> h ->
          FileSystemArtifactLayer.files twice !! k
          = FileSystemArtifactLayer.files w !! k)
    /\ (pA = pB -> twice = once).
Proof.
  intros Hq. eexists. eexists.
  split; [by apply write_file_quiet|].
  split; [apply lookup_insert_eq|].
  split; [by apply write_file_quiet|]. simpl.
  split; [apply lookup_insert_eq|]. split.
  - intros k Hk. by rewrite !lookup_insert_ne.
  - intros ->. unfold FileSystemArtifactLayer.set_files. simpl.
    by rewrite insert_insert_eq.
Qed.

End LayerFacts.

(** C8, counterexample.  After a first [add([D])] on the empty layer the
    index lists D's record and the file "hD" holds D's payload.  D is
    added again and the write is cut short after the open (the disk is
    full): the call raises [OSError], the index still lists D's record,
    and "hD" is an empty file. *)
Lemma claimed_index_never_dangling_fails :
  ~ claimed_index_never_dangling Some [Sample.D] Sample.full_disk.
Proof.
  intros Hclaim.
  assert (InMemoryStore.artifacts
            (FileSystemArtifactLayer.metadata_store Sample.full_disk)
          = [FileSystemArtifactLayer.record_of Sample.D]) as Hindex
    by reflexivity.
  destruct (Hclaim) with (a := FileSystemArtifactLayer.record_of Sample.D)
    as (d & _ & Hfile).
  - intros a Ha. rewrite Hindex in Ha.
    apply list_elem_of_singleton in Ha. subst a.
    by exists Sample.D.
  - by apply list_elem_of_singleton.
  - by vm_compute in Hfile.
Qed.

(** C8 on the layer that holds D, for a batch of D and O whose second
    write is refused at the open: D's record is appended again, over a
    whole payload, and nothing is recorded for O. *)
Lemma add_writes_payload_before_record_witness :
  FileSystemArtifactLayer.intact Some
    (snd (FileSystemArtifactLayer.add Some [Sample.D; Sample.O]
            (FileSystemArtifactLayer.holding {["hD" := Some Sample.D]}
               [FileSystemArtifactLayer.record_of Sample.D]
               [FileSystemArtifactLayer.Written;
                FileSystemArtifactLayer.Refused]))).
Proof.
  destruct (add_writes_payload_before_record Some [Sample.D; Sample.O]
              (FileSystemArtifactLayer.holding {["hD" := Some Sample.D]}
                 [FileSystemArtifactLayer.record_of Sample.D]
                 [FileSystemArtifactLayer.Written;
                  FileSystemArtifactLayer.Refused]))
    as (_ & written & rest & _ & _ & _ & _ & Hwhole).
  apply Hwhole.
  - intros torn e Hin. simpl in Hin.
    apply elem_of_cons in Hin as [Hin|Hin]; [discriminate|].
    apply list_elem_of_singleton in Hin. discriminate.
  - intros a Ha. apply list_elem_of_singleton in Ha. subst a.
    by exists Sample.D.
Defined.

(** C5 on the empty layer, with documents stored as they are. *)
Lemma add_twice_appends_again_witness :
  exists once twice : @FileSystemArtifactLayer.t Document,
    once = snd (FileSystemArtifactLayer.add (fun d => d) [Sample.D]
                  Sample.empty_layer)
    /\ twice = snd (FileSystemArtifactLayer.add (fun d => d) [Sample.D] once)
    /\ InMemoryStore.artifacts (FileSystemArtifactLayer.metadata_store twice)
       = [FileSystemArtifactLayer.record_of Sample.D;
          FileSystemArtifactLayer.record_of Sample.D].
Proof.
  destruct (add_twice_appends_again (fun d => d) Sample.D Sample.empty_layer
              eq_refl)
    as (once & twice & H1 & H2 & _ & _ & _ & _ & _ & H3 & H4 & _).
  exists once, twice. split; [exact H1|]. split; [exact H2|].
  rewrite H4, H3. reflexivity.
Defined.

(** C5, counterexample.  On an empty layer the second [add([D])] leaves
    the record of D twice in the index, and does not end in a
    [DuplicateError]. *)
Lemma claimed_idempotent_add_fails :
  ~ claimed_idempotent_add (fun d : Document => d) Sample.D Sample.empty_layer.
Proof.
  unfold claimed_idempotent_add. vm_compute.
  intros [[_ Heq]|He]; discriminate.
Qed.

(** C6 on the empty layer, with strings for payloads. *)
Lemma write_file_overwrites_witness :
  exists once twice : @FileSystemArtifactLayer.t string,
    FileSystemArtifactLayer.write_file "h" "A" Sample.empty_layer
    = (Ok tt, once)
    /\ FileSystemArtifactLayer.write_file "h" "B" once = (Ok tt, twice)
    /\ FileSystemArtifactLayer.files twice !! "h" = Some "B".
Proof.
  destruct (write_file_overwrites "h" "A" "B" Sample.empty_layer eq_refl)
    as (once & twice & H1 & _ & H2 & H3 & _).
  exists once, twice. by repeat split.
Defined.

(** C6, counterexample.  On an empty layer, storing "B" under "h" after
    "A" returns, and "h" then holds "B". *)
Lemma claimed_integrity_rejection_fails :
  ~ claimed_integrity_rejection "h" "A" "B"
      (Sample.empty_layer (Payload := string)).
Proof.
  unfold claimed_integrity_rejection. vm_compute.
  intros H. destruct H as [[e He] _]; discriminate.
Qed.

(** * Properties of the caching interceptor *)

Section ListFacts.
Context {A : Type} (P : A -> Prop) `{!forall x, Decision (P x)}.

Lemma filter_none (l : list A) :
  (forall x, x ∈ l -> ~ P x) -> filter P l = [].
Proof.
  induction l as [|x l IH]; intros Hl; [done|].
  rewrite filter_cons_False by (apply Hl; by left).
  apply IH. intros y Hy. apply Hl. by right.
Qed.

Lemma filter_all (l : list A) :
  (forall x, x ∈ l -> P x) -> filter P l = l.
Proof.
  induction l as [|x l IH]; intros Hl; [done|].
  rewrite filter_cons_True by (apply Hl; by left).
  f_equal. apply IH. intros y Hy. apply Hl. by right.
Qed.

End ListFacts.

Section MonadFacts.
Context {S A B C : Type}.

Lemma bind_assoc (m : M S A) (f : A -> M S B) (g : B -> M S C) s :
  bind (bind m f) g s = bind m (fun x => bind (f x) g) s.
Proof. unfold bind. by destruct (m s) as [[a|e] s']. Qed.

Lemma bind_ext (m : M S A) (f g : A -> M S B) s :
  (forall a s', f a s' = g a s') -> bind m f s = bind m g s.
Proof. intros Hfg. unfold bind. by destruct (m s) as [[a|e] s']. Qed.

Lemma for_acc_app (l1 l2 : list A) (body : B -> A -> M S B) acc s :
  for_acc (l1 ++ l2) body acc s
  = bind (for_acc l1 body acc) (fun acc' => for_acc l2 body acc') s.
Proof.
  revert acc s. induction l1 as [|x l1 IH]; intros acc s; simpl.
  - done.
  - unfold bind in *.
    destruct (body acc x s) as [[acc'|e] s']; [apply IH|done].
Qed.

End MonadFacts.

Section InterceptorFacts.
Context {Payload : Type}.
Variable serialize_document : Document -> Payload.
Variable deserialize_document : Payload -> option Document.
Context {TState : Type}.
Variable document_transformer : list Document -> M TState (list Document).

Local Abbreviation Layer := (@FileSystemArtifactLayer.t Payload).
Local Abbreviation Interceptor := (@CachingInterceptor.t Payload TState).
Local Abbreviation transform_documents :=
  (CachingInterceptor.transform_documents serialize_document
     deserialize_document document_transformer).
Local Abbreviation transform_loop :=
  (CachingInterceptor.transform_loop serialize_document
     deserialize_document document_transformer).
Local Abbreviation transform_one :=
  (CachingInterceptor.transform_one serialize_document
     deserialize_document document_transformer).
Local Abbreviation read_document :=
  (FileSystemArtifactLayer.read_document deserialize_document).
Local Abbreviation read_documents :=
  (FileSystemArtifactLayer.read_documents deserialize_document).

Lemma flags_app (w : Layer) (l1 l2 : list Document) :
  zip (l1 ++ l2) (FileSystemArtifactLayer.exists_ (id_ <$> (l1 ++ l2)) w)
  = zip l1 (FileSystemArtifactLayer.exists_ (id_ <$> l1) w)
    ++ zip l2 (FileSystemArtifactLayer.exists_ (id_ <$> l2) w).
Proof.
  induction l1 as [|d l1 IH]; simpl; [done|]. f_equal. exact IH.
Qed.

Lemma transform_loop_app (w : Layer) l1 l2 acc c :
  transform_loop w (l1 ++ l2) acc c
  = bind (transform_loop w l1 acc) (fun acc' => transform_loop w l2 acc') c.
Proof.
  unfold CachingInterceptor.transform_loop.
  by rewrite flags_app, for_acc_app.
Qed.

(** The layer's children of [h]: the payload files of the records that
    list [h] as a parent are read in storage order. *)
Lemma get_child_documents_scan h (w : Layer) :
  FileSystemArtifactLayer.get_child_documents deserialize_document h w
  = read_documents
      (uuid <$> filter (fun a => h ∈ parent_uuids a)
                  (InMemoryStore.artifacts
                     (FileSystemArtifactLayer.metadata_store w)))
      None w.
Proof.
  unfold FileSystemArtifactLayer.get_child_documents,
    FileSystemArtifactLayer.get_matching_documents.
  by rewrite select_children_of.
Qed.

Lemma read_documents_all (w : Layer) uuids documents :
  Forall2 (fun u d => read_document u w = Ok d) uuids documents ->
  read_documents uuids None w = (documents, None).
Proof.
  induction 1 as [|u d uuids documents Hu _ IH]; simpl; [done|].
  by rewrite Hu, IH.
Qed.

(** One turn of the loop for a document whose id the layer knows. *)
Lemma transform_loop_hit (w : Layer) d acc (c : Interceptor) :
  FileSystemArtifactLayer.exists_ [id_ d] w = [true] ->
  transform_loop w [d] acc c
  = bind (CachingInterceptor.get_child_documents deserialize_document
            (hash_ d))
      (fun children => ret (acc ++ children)) c.
Proof.
  intros Hex. unfold CachingInterceptor.transform_loop.
  change (id_ <$> [d]) with [id_ d]. rewrite Hex. simpl.
  unfold bind, ret.
  by destruct (CachingInterceptor.get_child_documents _ _ c) as [[ch|e] c'].
Qed.

Lemma transform_loop_hit_bind {B} (w : Layer) d acc
  (k : list Document -> M Interceptor B) (c : Interceptor) :
  FileSystemArtifactLayer.exists_ [id_ d] w = [true] ->
  bind (transform_loop w [d] acc) k c
  = bind (CachingInterceptor.get_child_documents deserialize_document
            (hash_ d))
      (fun children => k (acc ++ children)) c.
Proof.
  intros Hex. unfold bind at 1. rewrite transform_loop_hit by done.
  unfold bind, ret.
  by destruct (CachingInterceptor.get_child_documents _ _ c) as [[ch|e] c'].
Qed.

(** A call on a single document whose id the layer knows. *)
Lemma transform_documents_hit d (c : Interceptor) :
  FileSystemArtifactLayer.exists_ [id_ d]
    (CachingInterceptor._artifact_layer c) = [true] ->
  transform_documents [d] c
  = (collect (FileSystemArtifactLayer.get_child_documents
                deserialize_document (hash_ d)
                (CachingInterceptor._artifact_layer c)), c).
Proof.
  intros Hex.
  change (transform_documents [d] c)
    with (transform_loop (CachingInterceptor._artifact_layer c) [d] [] c).
  rewrite transform_loop_hit by done.
  unfold bind, CachingInterceptor.get_child_documents, inspect, ret.
  by destruct (collect _).
Qed.





(** ** Reading stored children *)

Lemma read_document_Ok u (w : Layer) doc :
  read_document u w = Ok doc
  <-> exists payload,
        FileSystemArtifactLayer.files w !! u = Some payload
        /\ deserialize_document payload = Some doc.
Proof.
  unfold FileSystemArtifactLayer.read_document.
  destruct (FileSystemArtifactLayer.files w !! u) as [payload|].
  - destruct (deserialize_document payload) as [doc'|] eqn:Hd.
    + split.
      * intros [= <-]. by exists payload.
      * intros (p & [= <-] & Hp). congruence.
    + split; [done|]. intros (p & [= <-] & Hp). congruence.
  - split; [done|]. by intros (p & Hp & _).
Qed.

Lemma read_document_Raise u (w : Layer) e :
  read_document u w = Raise e -> e = FileNotFoundError \/ e = DeserializeError.
Proof.
  unfold FileSystemArtifactLayer.read_document.
  destruct (FileSystemArtifactLayer.files w !! u) as [payload|].
  - destruct (deserialize_document payload); [done|]. intros [= <-]. by right.
  - intros [= <-]. by left.
Qed.

Lemma read_documents_Ok (w : Layer) uuids documents :
  read_documents uuids None w = (documents, None)
  <-> Forall2 (fun u d => read_document u w = Ok d) uuids documents.
Proof.
  split; [|apply read_documents_all].
  revert documents. induction uuids as [|u uuids IH]; intros documents; simpl.
  - intros [= <-]. constructor.
  - destruct (read_document u w) as [doc|e] eqn:Hu; [|done].
    destruct (read_documents uuids None w) as [ds stop].
    intros [= <- ->]. constructor; [done|]. by apply IH.
Qed.

Lemma read_documents_Raise (w : Layer) uuids documents e :
  read_documents uuids None w = (documents, Some e) ->
  e = FileNotFoundError \/ e = DeserializeError.
Proof.
  revert documents. induction uuids as [|u uuids IH]; intros documents; simpl.
  - done.
  - destruct (read_document u w) as [doc|e'] eqn:Hu.
    + destruct (read_documents uuids None w) as [ds stop].
      intros [= _ ->]. by eapply IH.
    + intros [= _ <-]. by eapply read_document_Raise.
Qed.

(** What [get_child_documents(h)] hands to the loop, in whatever state
    its turn comes: the documents found, whole, in the payload files of
    the records that list [h] among their parents, one per record in
    storage order; when one of these files is missing or does not hold a
    document, the exception of the read. *)
Lemma get_child_documents_spec h (c : Interceptor) :
  (forall children,
     fst (CachingInterceptor.get_child_documents deserialize_document h c)
     = Ok children
     <-> Forall2
           (fun a doc =>
              exists payload,
                FileSystemArtifactLayer.files
                  (CachingInterceptor._artifact_layer c) !! uuid a
                = Some payload
                /\ deserialize_document payload = Some doc)
           (filter (fun a => h ∈ parent_uuids a)
              (InMemoryStore.artifacts
                 (FileSystemArtifactLayer.metadata_store
                    (CachingInterceptor._artifact_layer c))))
           children)
  /\ (forall e,
        fst (CachingInterceptor.get_child_documents deserialize_document h c)
        = Raise e ->
        e = FileNotFoundError \/ e = DeserializeError).
Proof.
  unfold CachingInterceptor.get_child_documents, inspect. simpl.
  rewrite get_child_documents_scan.
  destruct (read_documents _ None (CachingInterceptor._artifact_layer c))
    as [ds [e|]] eqn:Hrun; simpl.
  - split.
    + intros children. split; [done|]. intros Hall.
      assert (read_documents
                (uuid <$> filter (fun a => h ∈ parent_uuids a)
                   (InMemoryStore.artifacts
                      (FileSystemArtifactLayer.metadata_store
                         (CachingInterceptor._artifact_layer c))))
                None (CachingInterceptor._artifact_layer c)
              = (children, None)) as Hok.
      { apply read_documents_Ok, Forall2_fmap_l.
        eapply Forall2_impl; [exact Hall|].
        intros a doc Ha. by apply read_document_Ok. }
      congruence.
    + intros e' [= <-]. by eapply read_documents_Raise.
  - split; [|done].
    apply read_documents_Ok, Forall2_fmap_l in Hrun.
    intros children. split.
    + intros [= <-]. eapply Forall2_impl; [exact Hrun|].
      intros a doc Ha. by apply read_document_Ok.
    + intros Hall. f_equal.
      assert (read_documents
                (uuid <$> filter (fun a => h ∈ parent_uuids a)
                   (InMemoryStore.artifacts
                      (FileSystemArtifactLayer.metadata_store
                         (CachingInterceptor._artifact_layer c))))
                None (CachingInterceptor._artifact_layer c)
              = (children, None)) as Hok.
      { apply read_documents_Ok, Forall2_fmap_l.
        eapply Forall2_impl; [exact Hall|].
        intros a doc Ha. by apply read_document_Ok. }
      assert (read_documents
                (uuid <$> filter (fun a => h ∈ parent_uuids a)
                   (InMemoryStore.artifacts
                      (FileSystemArtifactLayer.metadata_store
                         (CachingInterceptor._artifact_layer c))))
                None (CachingInterceptor._artifact_layer c)
              = (ds, None)) as Hds.
      { apply read_documents_Ok, Forall2_fmap_l. exact Hrun. }
      congruence.
Qed.

(** C3. Let the layer already know the logical id of an input document
    [d].  Wherever [d] stands in the input, [transform_documents]
    handles it by reading the layer's child documents of [d]'s hash and
    appending them to the result at that position; this step leaves the
    interceptor, its call log included, as it was, so the transformer is
    not invoked for [d].  What the step appends is fixed by the index and
    the payload files: it is the list of the documents stored, whole, in
    the files named by the records that list [d]'s hash among their
    parents, one per record in storage order, and the step raises (the
    exception of the read) when one of these files is missing or holds no
    document.  A call on [d] alone returns exactly these documents. *)
Theorem transform_documents_reuses_children (pre post : list Document)
  (d : Document) (c : Interceptor) :
  FileSystemArtifactLayer.exists_ [id_ d]
    (CachingInterceptor._artifact_layer c) = [true] ->
  transform_documents (pre ++ d :: post) c
  = (do acc <- transform_loop (CachingInterceptor._artifact_layer c) pre [];
     do children <- CachingInterceptor.get_child_documents
                      deserialize_document (hash_ d);
     transform_loop (CachingInterceptor._artifact_layer c) post
       (acc ++ children)) c
  /\ (forall c' : Interceptor,
        snd (CachingInterceptor.get_child_documents deserialize_document
               (hash_ d) c') = c')
  /\ (forall (c' : Interceptor) children,
        fst (CachingInterceptor.get_child_documents deserialize_document
               (hash_ d) c') = Ok children
        <-> Forall2
              (fun a doc =>
                 exists payload,
                   FileSystemArtifactLayer.files
                     (CachingInterceptor._artifact_layer c') !! uuid a
                   = Some payload
                   /\ deserialize_document payload = Some doc)
              (filter (fun a => hash_ d ∈ parent_uuids a)
                 (InMemoryStore.artifacts
                    (FileSystemArtifactLayer.metadata_store
                       (CachingInterceptor._artifact_layer c'))))
              children)
  /\ (forall (c' : Interceptor) e,
        fst (CachingInterceptor.get_child_documents deserialize_document
               (hash_ d) c') = Raise e ->
        e = FileNotFoundError \/ e = DeserializeError)
  /\ (forall children,
        Forall2
          (fun a doc =>
             exists payload,
               FileSystemArtifactLayer.files
                 (CachingInterceptor._artifact_layer c) !! uuid a
               = Some payload
               /\ deserialize_document payload = Some doc)
          (filter (fun a => hash_ d ∈ parent_uuids a)
             (InMemoryStore.artifacts
                (FileSystemArtifactLayer.metadata_store
                   (CachingInterceptor._artifact_layer c))))
          children ->
        transform_documents [d] c = (Ok children, c)).
Proof.
  intros Hex. pose proof (transform_documents_hit d c Hex) as Halone.
  split; [|split; [intros c'; reflexivity|split; [|split]]].
  - change (transform_documents (pre ++ d :: post) c)
      with (transform_loop (CachingInterceptor._artifact_layer c)
              (pre ++ [d] ++ post) [] c).
    rewrite transform_loop_app. apply bind_ext. intros acc c1.
    rewrite transform_loop_app, transform_loop_hit_bind by done.
    reflexivity.
  - intros c'. apply get_child_documents_spec.
  - intros c'. apply get_child_documents_spec.
  - intros children Hread. rewrite Halone. f_equal.
    by apply (get_child_documents_spec (hash_ d) c).
Qed.


End InterceptorFacts.

(** C3 on a layer that holds K, a child of D carrying D's logical id. *)
Lemma transform_documents_reuses_children_witness :
  CachingInterceptor.transform_documents (fun d => d) Some Sample.relabel
    [Sample.D] Sample.primed
  = (Ok [Sample.K], Sample.primed).
Proof.
  apply (transform_documents_reuses_children (fun d => d) Some Sample.relabel
           [] [] Sample.D Sample.primed).
  - by vm_compute.
  - vm_compute. constructor; [|constructor].
    exists Sample.K. split; reflexivity.
Defined.



(** * Runs on sample data *)

(** With the content hash in the [ids] clause, the clauses combine as a
    union, in storage order. *)
Example select_union :
  InMemoryStore.select (Sample.by_ids_or_parent_hashes {["hA"]} {["hA"]})
    (InMemoryStore.init [Sample.A; Sample.B])
  = (["hA"; "hB"], None).
Proof. by vm_compute. Qed.

Example get_by_uuids_missing :
  InMemoryStore.get_by_uuids ["hA"; "hB"] (InMemoryStore.init [Sample.A])
  = Raise KeyError.
Proof. by vm_compute. Qed.

(** A batch whose second write is refused: the first document is written
    and recorded, the second is neither, and [save] is not reached. *)
Example add_refused_write :
  let run :=
    FileSystemArtifactLayer.add (fun d => d) [Sample.D; Sample.O]
      (FileSystemArtifactLayer.holding ∅ []
         [FileSystemArtifactLayer.Written; FileSystemArtifactLayer.Refused]) in
  fst run = Raise OSError
  /\ InMemoryStore.artifacts (FileSystemArtifactLayer.metadata_store (snd run))
     = [FileSystemArtifactLayer.record_of Sample.D]
  /\ FileSystemArtifactLayer.files (snd run) !! "hD" = Some Sample.D
  /\ FileSystemArtifactLayer.files (snd run) !! "hO" = None
  /\ FileSystemArtifactLayer.metadata_json (snd run)
     = FileSystemArtifactLayer.Listing [].
Proof. repeat split; by vm_compute. Qed.

(** A batch whose writes go through: both documents are written and
    recorded, then [save] empties [metadata.json] and the call raises. *)
Example add_reaches_save :
  let run :=
    FileSystemArtifactLayer.add (fun d => d) [Sample.D; Sample.O]
      Sample.empty_layer in
  fst run = Raise AttributeError
  /\ InMemoryStore.artifacts (FileSystemArtifactLayer.metadata_store (snd run))
     = [FileSystemArtifactLayer.record_of Sample.D;
        FileSystemArtifactLayer.record_of Sample.O]
  /\ FileSystemArtifactLayer.files (snd run) !! "hD" = Some Sample.D
  /\ FileSystemArtifactLayer.files (snd run) !! "hO" = Some Sample.O
  /\ FileSystemArtifactLayer.metadata_json (snd run)
     = FileSystemArtifactLayer.Truncated.
Proof. repeat split; by vm_compute. Qed.

(** A batch with a known and an unknown document: the store is read for
    D, the transformer is invoked for E alone and its output is stored;
    the call then ends in the exception of [add]. *)
Example transform_documents_mixed :
  let run :=
    CachingInterceptor.transform_documents (fun d => d) Some Sample.relabel
      [Sample.D; Sample.E] Sample.primed in
  fst run = Raise AttributeError
  /\ CachingInterceptor.calls (snd run) = [[Sample.E]]
  /\ InMemoryStore.artifacts
       (FileSystemArtifactLayer.metadata_store
          (CachingInterceptor._artifact_layer (snd run)))
     = [FileSystemArtifactLayer.record_of Sample.K;
        FileSystemArtifactLayer.record_of Sample.O].
Proof. repeat split; by vm_compute. Qed.

(** * Further properties of the metadata index *)

Section MoreStoreFacts.
Import InMemoryStore.

Lemma index_by_lookup key (l : list Artifact) k :
  index_by key l !! k = last (filter (fun a => key a = k) l).
Proof.
  induction l as [|a l IH] using rev_ind.
  - unfold index_by. simpl. by rewrite lookup_empty.
  - rewrite index_by_snoc, filter_app.
    destruct (decide (key a = k)) as [Heq|Hne].
    + rewrite filter_cons_True, filter_nil by done.
      rewrite last_snoc. rewrite <- Heq. apply lookup_insert_eq.
    + rewrite filter_cons_False, filter_nil, app_nil_r by done.
      by rewrite lookup_insert_ne.
Qed.

Lemma add_init a data : snd (add a (init data)) = init (data ++ [a]).
Proof. unfold add, init. simpl. by rewrite !index_by_snoc. Qed.

Lemma add_all_init l data : add_all l (init data) = init (data ++ l).
Proof.
  revert data. induction l as [|a l IH]; intros data.
  - by rewrite app_nil_r.
  - unfold add_all in *. cbn [foldl]. rewrite add_init, IH.
    by rewrite <- app_assoc.
Qed.

Lemma reachable_init st : reachable st -> st = init (artifacts st).
Proof.
  intros [Hu Hi]%reachable_consistent. destruct st as [l u i].
  simpl in *. by subst.
Qed.

(** [__init__] followed by a run of [add] builds the store that [__init__]
    builds from the extended list; so every store built through the class
    is the one [__init__] builds from its own list, and two such stores
    with the same list are equal. *)
Theorem init_then_add_all :
  (forall data l, add_all l (init data) = init (data ++ l))
  /\ (forall st, reachable st -> st = init (artifacts st))
  /\ (forall st st', reachable st -> reachable st' ->
        artifacts st = artifacts st' -> st = st').
Proof.
  split; [|split].
  - intros data l. apply add_all_init.
  - apply reachable_init.
  - intros st st' Hst Hst' Heq.
    by rewrite (reachable_init st), (reachable_init st'), Heq.
Qed.

Lemma dictionaries_hold_last_record_aux st k :
  reachable st ->
  artifact_uuid st !! k
  = last (filter (fun a => uuid a = k) (artifacts st))
  /\ artifact_ids st !! k
     = last (filter (fun a => custom_id a = k) (artifacts st)).
Proof.
  intros [Hu Hi]%reachable_consistent.
  by rewrite Hu, Hi, !index_by_lookup.
Qed.

(** On a store built through the class, each dictionary maps a key to the
    record stored last under that key, and to nothing when no stored
    record carries the key. *)
Theorem dictionaries_hold_last_record st k :
  reachable st ->
  artifact_uuid st !! k
  = last (filter (fun a => uuid a = k) (artifacts st))
  /\ artifact_ids st !! k
     = last (filter (fun a => custom_id a = k) (artifacts st)).
Proof.
  apply dictionaries_hold_last_record_aux.
Qed.

(** [get_by_uuids] on a store built through the class: it returns, for
    each requested uuid in order, the record stored last under it; it
    raises [KeyError], and nothing else, when some requested uuid is the
    uuid of no stored record. *)
Theorem get_by_uuids_spec st uuids :
  reachable st ->
  match get_by_uuids uuids st with
  | Ok l =>
      Forall2
        (fun u a => last (filter (fun b => uuid b = u) (artifacts st)) = Some a)
        uuids l
  | Raise e =>
      e = KeyError
      /\ exists u, u ∈ uuids /\ forall a, a ∈ artifacts st -> uuid a <> u
  end.
Proof.
  intros Hst. induction uuids as [|u uuids IH]; simpl; [constructor|].
  destruct (dictionaries_hold_last_record_aux st u Hst) as [Hu _].
  rewrite Hu.
  destruct (last (filter (fun b => uuid b = u) (artifacts st))) as [a|] eqn:Hl.
  - destruct (get_by_uuids uuids st) as [l|e].
    + by constructor.
    + destruct IH as (-> & u' & Hu' & Hnone). split; [done|].
      exists u'. split; [by right|done].
  - split; [done|]. exists u. split; [by left|].
    intros a Ha Hua. apply last_None in Hl.
    by apply (filter_nil_not_elem_of _ _ a Hl Hua).
Qed.

(** ** The scan of [select] *)

Lemma truthy_member o x : truthy o && member x o = true <-> x ∈ default ∅ o.
Proof.
  destruct o as [s|]; simpl.
  - rewrite andb_true_iff, !bool_decide_eq_true. split; [by intros [_ Hx]|].
    intros Hx. split; [|done]. intros Hs. rewrite Hs in Hx.
    by apply not_elem_of_empty in Hx.
  - split; [done|]. intros Hx. by apply not_elem_of_empty in Hx.
Qed.

Lemma parents_test (ps : list string) (ph : gset string) :
  list_to_set ps ∩ ph ≠ ∅ <-> Exists (fun p => p ∈ ph) ps.
Proof.
  rewrite Exists_exists. split.
  - intros Hne. apply set_choose_L in Hne as [x Hx].
    apply elem_of_intersection in Hx as [Hx1 Hx2].
    exists x. split; [|done]. by apply elem_of_list_to_set in Hx1.
  - intros (x & Hx1 & Hx2) Hempty.
    apply (not_elem_of_empty (C := gset string) x). rewrite <- Hempty.
    apply elem_of_intersection. split; [|done].
    by apply elem_of_list_to_set.
Qed.

(** The test of one record answers [matches], unless the record is one on
    which a selector without [parent_hashes] clause is stuck. *)
Lemma select_test_matches s a :
  ~ (Selector.parent_hashes s = None /\ stuck s a) ->
  select_test s a = Ok (bool_decide (matches s a)).
Proof.
  intros Hok. unfold select_test.
  destruct (truthy (Selector.ids s) && member (uuid a) (Selector.ids s))
    eqn:Hids.
  { apply truthy_member in Hids. rewrite bool_decide_eq_true_2; [done|].
    by left. }
  destruct (truthy (Selector.hashes s) && member (uuid a) (Selector.hashes s))
    eqn:Hhashes.
  { apply truthy_member in Hhashes. rewrite bool_decide_eq_true_2; [done|].
    right. by left. }
  assert (uuid a ∉ default ∅ (Selector.ids s)) as Hni.
  { intros Hx. apply truthy_member in Hx. congruence. }
  assert (uuid a ∉ default ∅ (Selector.hashes s)) as Hnh.
  { intros Hx. apply truthy_member in Hx. congruence. }
  assert (matches s a
          <-> Exists (fun p => p ∈ default ∅ (Selector.parent_hashes s))
                (parent_uuids a)) as Hm.
  { unfold matches. split; [|by eauto]. by intros [Hx|[Hx|Hx]]. }
  destruct (parent_uuids a) as [|p ps] eqn:Hp.
  - rewrite bool_decide_eq_false_2; [done|].
    rewrite Hm. by intros Hx%Exists_nil.
  - destruct (Selector.parent_hashes s) as [ph|] eqn:Hph.
    + f_equal. apply bool_decide_ext. by rewrite parents_test, Hm.
    + destruct Hok. split; [done|]. unfold stuck. rewrite Hp. by eauto.
Qed.

Lemma select_test_stuck s a :
  Selector.parent_hashes s = None -> stuck s a ->
  select_test s a = Raise TypeError.
Proof.
  intros Hph (Hp & Hni & Hnh). unfold select_test.
  destruct (truthy (Selector.ids s) && member (uuid a) (Selector.ids s))
    eqn:Hids; [by apply truthy_member in Hids|].
  destruct (truthy (Selector.hashes s) && member (uuid a) (Selector.hashes s))
    eqn:Hhashes; [by apply truthy_member in Hhashes|].
  destruct (parent_uuids a); [done|]. by rewrite Hph.
Qed.

Lemma select_loop_matches s l :
  Forall (fun a => ~ (Selector.parent_hashes s = None /\ stuck s a)) l ->
  select_loop s l = (uuid <$> filter (matches s) l, None).
Proof.
  induction 1 as [|a l Ha _ IH]; simpl; [done|].
  rewrite select_test_matches, IH by done.
  destruct (decide (matches s a)) as [Hm|Hm].
  - by rewrite bool_decide_eq_true_2, filter_cons_True.
  - by rewrite bool_decide_eq_false_2, filter_cons_False.
Qed.

(** [select] with a [parent_hashes] clause never raises.  It yields, in
    storage order and once per record, the uuid of every record whose uuid
    is in the [ids] clause or in the [hashes] clause or one of whose
    parents is in the [parent_hashes] clause; absent and empty clauses pick
    nothing. *)
Theorem select_with_parent_clause s st ph :
  Selector.parent_hashes s = Some ph ->
  select s st = (uuid <$> filter (matches s) (artifacts st), None).
Proof.
  intros Hph. apply select_loop_matches, Forall_forall.
  intros a _ [Hnone _]. congruence.
Qed.

(** [select] without a [parent_hashes] clause: the scan completes when no
    stored record is stuck, that is, has parents and is picked by neither
    the [ids] nor the [hashes] clause.  Otherwise it yields what it picked
    before the first stuck record and raises [TypeError] there. *)
Theorem select_without_parent_clause s st :
  Selector.parent_hashes s = None ->
  (Forall (fun a => ~ stuck s a) (artifacts st) ->
   select s st = (uuid <$> filter (matches s) (artifacts st), None))
  /\ (forall pre a post,
        artifacts st = pre ++ a :: post ->
        Forall (fun a => ~ stuck s a) pre -> stuck s a ->
        select s st = (uuid <$> filter (matches s) pre, Some TypeError)).
Proof.
  intros Hph. split.
  - intros Hfree. apply select_loop_matches.
    eapply Forall_impl; [exact Hfree|]. by intros a Ha [_ Hs].
  - intros pre a post Hsplit Hfree Hstuck. unfold select.
    rewrite Hsplit, select_loop_app, select_loop_matches.
    2:{ eapply Forall_impl; [exact Hfree|]. by intros b Hb [_ Hs]. }
    simpl. rewrite select_test_stuck by done. by rewrite app_nil_r.
Qed.

(** Whatever the selector, and whether or not the scan raises, what
    [select] yields is a subsequence of the stored uuids in storage order:
    it never yields a uuid that is not stored, and never more occurrences
    than are stored. *)
Theorem select_yields_stored s st :
  fst (select s st) `sublist_of` (uuid <$> artifacts st).
Proof.
  unfold select. induction (artifacts st) as [|a l IH]; simpl; [done|].
  destruct (select_test s a) as [[|]|e]; simpl.
  - destruct (select_loop s l) as [ys e]. simpl in *. by constructor.
  - by constructor.
  - apply sublist_nil_l.
Qed.

End MoreStoreFacts.

(** The dictionaries of a store that holds two records with A's keys. *)
Lemma dictionaries_hold_last_record_witness :
  InMemoryStore.artifact_uuid
    (InMemoryStore.init [Sample.A; Sample.B; Sample.A]) !! "hA"
  = last (filter (fun a => uuid a = "hA") [Sample.A; Sample.B; Sample.A])
  /\ InMemoryStore.artifact_ids
       (InMemoryStore.init [Sample.A; Sample.B; Sample.A]) !! "hA"
     = last (filter (fun a => custom_id a = "hA")
               [Sample.A; Sample.B; Sample.A]).
Proof.
  apply (dictionaries_hold_last_record
           (InMemoryStore.init [Sample.A; Sample.B; Sample.A]) "hA").
  apply InMemoryStore.reach_init.
Defined.

(** [get_by_uuids] for B's and A's uuid on the store holding A and B. *)
Lemma get_by_uuids_spec_witness :
  match InMemoryStore.get_by_uuids ["hB"; "hA"]
          (InMemoryStore.init [Sample.A; Sample.B]) with
  | Ok l =>
      Forall2
        (fun u a =>
           last (filter (fun b => uuid b = u) [Sample.A; Sample.B]) = Some a)
        ["hB"; "hA"] l
  | Raise e =>
      e = KeyError
      /\ exists u, u ∈ ["hB"; "hA"]
           /\ forall a, a ∈ [Sample.A; Sample.B] -> uuid a <> u
  end.
Proof.
  apply (get_by_uuids_spec (InMemoryStore.init [Sample.A; Sample.B])
           ["hB"; "hA"]).
  apply InMemoryStore.reach_init.
Defined.

(** [select] with both clauses on the store holding A and B. *)
Lemma select_with_parent_clause_witness :
  InMemoryStore.select (Sample.by_ids_or_parent_hashes {["hA"]} {["hA"]})
    (InMemoryStore.init [Sample.A; Sample.B])
  = (uuid <$> filter
       (InMemoryStore.matches
          (Sample.by_ids_or_parent_hashes {["hA"]} {["hA"]}))
       [Sample.A; Sample.B], None).
Proof.
  apply (select_with_parent_clause
           (Sample.by_ids_or_parent_hashes {["hA"]} {["hA"]})
           (InMemoryStore.init [Sample.A; Sample.B]) {["hA"]}).
  reflexivity.
Defined.

(** [select] by hashes alone on the store holding A and B: B has a parent
    and is not picked, so the scan stops at B. *)
Lemma select_without_parent_clause_witness :
  InMemoryStore.select (Sample.by_hashes {["hA"]})
    (InMemoryStore.init [Sample.A; Sample.B])
  = (uuid <$> filter (InMemoryStore.matches (Sample.by_hashes {["hA"]}))
       [Sample.A], Some TypeError).
Proof.
  destruct (select_without_parent_clause (Sample.by_hashes {["hA"]})
              (InMemoryStore.init [Sample.A; Sample.B]) eq_refl)
    as [_ Hstop].
  apply (Hstop [Sample.A] Sample.B []).
  - reflexivity.
  - constructor; [|constructor].
    intros (Hp & _). by apply Hp.
  - split; [done|]. split.
    + simpl. apply not_elem_of_empty.
    + simpl. intros Hx. by apply elem_of_singleton in Hx.
Defined.

(** * Further properties of the file-system layer *)

Section MoreLayerFacts.
Context {Payload : Type}.
Variable serialize_document : Document -> Payload.
Variable deserialize_document : Payload -> option Document.

Local Abbreviation Layer := (@FileSystemArtifactLayer.t Payload).
Local Abbreviation add := (FileSystemArtifactLayer.add serialize_document).
Local Abbreviation add_one :=
  (FileSystemArtifactLayer.add_one serialize_document).
Local Abbreviation payloads_of :=
  (FileSystemArtifactLayer.payloads_of serialize_document).
Local Abbreviation records_of := FileSystemArtifactLayer.records_of.
Local Abbreviation read_document :=
  (FileSystemArtifactLayer.read_document deserialize_document).
Local Abbreviation read_documents :=
  (FileSystemArtifactLayer.read_documents deserialize_document).
Local Abbreviation get_matching_documents :=
  (FileSystemArtifactLayer.get_matching_documents deserialize_document).
Local Abbreviation Refused := FileSystemArtifactLayer.Refused.

Lemma records_of_reachable documents st :
  InMemoryStore.reachable st -> InMemoryStore.reachable (records_of documents st).
Proof.
  revert st. induction documents as [|d documents IH]; intros st Hst; [done|].
  unfold FileSystemArtifactLayer.records_of in *. cbn [foldl].
  apply IH. by constructor.
Qed.


(** [add] never returns normally either: it raises the exception of its
    first failed write or, when every write goes through, that of
    [save].  With no write fault ahead it writes every payload, appends
    every record, empties [metadata.json] and raises [AttributeError].
    In no case is [metadata.json] rewritten with the index: after the
    call it is as it was before, or empty. *)
Theorem add_never_returns (documents : list Document) (w : Layer) :
  (exists e, fst (add documents w) = Raise e)
  /\ (FileSystemArtifactLayer.faults w = [] ->
      add documents w
      = (Raise AttributeError,
         {| FileSystemArtifactLayer.files :=
              payloads_of documents (FileSystemArtifactLayer.files w);
            FileSystemArtifactLayer.metadata_json :=
              FileSystemArtifactLayer.Truncated;
            FileSystemArtifactLayer.metadata_store :=
              records_of documents (FileSystemArtifactLayer.metadata_store w);
            FileSystemArtifactLayer.faults := [] |}))
  /\ (FileSystemArtifactLayer.metadata_json (snd (add documents w))
      = FileSystemArtifactLayer.metadata_json w
      \/ FileSystemArtifactLayer.metadata_json (snd (add documents w))
         = FileSystemArtifactLayer.Truncated).
Proof.
  split; [apply add_state|]. split; [apply add_quiet|].
  unfold FileSystemArtifactLayer.add, bind.
  destruct (add_loop_cases serialize_document documents w)
    as (written & rest & _ & _ & Hj & _).
  destruct (for_each documents add_one w) as [[[]|e] w1]; simpl in *.
  - destruct (save_cases w1) as (_ & _ & [(fs & _ & Hr)|(_ & _ & Hr & _)]).
    + left. rewrite Hr. simpl. exact Hj.
    + by right.
  - by left.
Qed.


(** Batching does not matter when the writes go through: adding a batch
    in two calls leaves the layer, its files, index and snapshot, as adding
    it in one call does. *)
Theorem add_app (l1 l2 : list Document) (w : Layer) :
  FileSystemArtifactLayer.faults w = [] ->
  add (l1 ++ l2) w = add l2 (snd (add l1 w)).
Proof.
  intros Hq. rewrite (add_quiet _ (l1 ++ l2)), (add_quiet _ l1) by done.
  cbn [snd]. rewrite add_quiet by done. simpl.
  unfold FileSystemArtifactLayer.payloads_of,
    FileSystemArtifactLayer.records_of.
  by rewrite !foldl_app.
Qed.


(** ** Reading documents back *)

Lemma matches_hashes_of hs a :
  InMemoryStore.matches (FileSystemArtifactLayer.hashes_of hs) a
  <-> uuid a ∈ hs.
Proof.
  unfold InMemoryStore.matches. simpl. split.
  - intros [Hx|[Hx|Hx]].
    + by apply not_elem_of_empty in Hx.
    + by apply elem_of_list_to_set in Hx.
    + apply Exists_exists in Hx as (p & _ & Hp).
      by apply not_elem_of_empty in Hp.
  - intros Hx. right. left. by apply elem_of_list_to_set.
Qed.

Lemma read_documents_readable (w : Layer) uuids stop :
  Forall (fun u => exists d, read_document u w = Ok d) uuids ->
  exists ds,
    Forall2 (fun u d => read_document u w = Ok d) uuids ds
    /\ read_documents uuids stop w = (ds, stop).
Proof.
  induction 1 as [|u uuids [d Hd] _ (ds & Hds & Hrun)]; simpl.
  - by exists [].
  - exists (d :: ds). split; [by constructor|]. by rewrite Hd, Hrun.
Qed.

Lemma read_documents_stop (w : Layer) us1 u us2 stop ds e :
  Forall2 (fun u d => read_document u w = Ok d) us1 ds ->
  read_document u w = Raise e ->
  read_documents (us1 ++ u :: us2) stop w = (ds, Some e).
Proof.
  intros Hds Hu. induction Hds as [|u1 d us1 ds Hd _ IH]; simpl.
  - by rewrite Hu.
  - by rewrite Hd, IH.
Qed.

(** The first record of a list that has a given decidable property. *)
Lemma Exists_first {A} (P : A -> Prop) `{!forall x, Decision (P x)}
  (l : list A) :
  Exists P l ->
  exists pre a post, l = pre ++ a :: post /\ Forall (fun x => ~ P x) pre /\ P a.
Proof.
  induction l as [|x l IH]; intros Hex; [by apply Exists_nil in Hex|].
  destruct (decide (P x)) as [Hx|Hx].
  - exists [], x, l. by split.
  - apply Exists_cons in Hex as [Hex|Hex]; [done|].
    destruct (IH Hex) as (pre & a & post & -> & Hpre & Ha).
    exists (x :: pre), a, post. split; [done|]. split; [|done].
    by constructor.
Qed.

Lemma matches_hashes_only hs a :
  InMemoryStore.matches (FileSystemArtifactLayer.hashes_only hs) a
  <-> uuid a ∈ hs.
Proof.
  unfold InMemoryStore.matches. simpl. split.
  - intros [Hx|[Hx|Hx]].
    + by apply not_elem_of_empty in Hx.
    + by apply elem_of_list_to_set in Hx.
    + apply Exists_exists in Hx as (p & _ & Hp).
      by apply not_elem_of_empty in Hp.
  - intros Hx. right. left. by apply elem_of_list_to_set.
Qed.

(** What is read back for a batch whose payloads the loop of [add] has
    written. *)
Lemma read_back documents (w : Layer) (f : gmap string Payload) :
  (forall d d', d ∈ documents -> d' ∈ documents -> hash_ d = hash_ d' ->
     d = d') ->
  (forall d, d ∈ documents ->
     deserialize_document (serialize_document d) = Some d) ->
  FileSystemArtifactLayer.files w = payloads_of documents f ->
  read_documents (uuid <$> (FileSystemArtifactLayer.record_of <$> documents))
    None w
  = (documents, None).
Proof.
  intros Hinj Hround Hfiles. apply read_documents_all.
  apply Forall2_fmap_l, Forall2_fmap_l, Forall_Forall2_diag.
  apply Forall_forall. intros d Hd. simpl.
  unfold FileSystemArtifactLayer.read_document. rewrite Hfiles.
  destruct (payloads_of_lookup serialize_document documents f (hash_ d))
    as (d' & Hd' & Hh & Hl); [by apply list_elem_of_fmap_2|].
  rewrite Hl, (Hinj d' d) by done. by rewrite Hround.
Qed.

(** Round trip through the layer.  Let no write fault lie ahead, let no
    earlier record carry the hash of a document of the batch, let
    documents of the batch with equal hashes be equal, and let every
    document of the batch survive serialization.  Then, after
    [add(documents)], the selector whose [hashes] clause holds the hashes
    of the batch and whose [parent_hashes] clause is the empty set reads
    back exactly the batch, in order.  The selector with that [hashes]
    clause and nothing else does so only when no earlier record has
    parents; when one has, it reads nothing and ends in the [TypeError]
    of [select]. *)
Theorem add_then_get_matching_documents (documents : list Document)
  (w : Layer) :
  FileSystemArtifactLayer.faults w = [] ->
  (forall a,
     a ∈ InMemoryStore.artifacts (FileSystemArtifactLayer.metadata_store w) ->
     uuid a ∉ hash_ <$> documents) ->
  (forall d d', d ∈ documents -> d' ∈ documents -> hash_ d = hash_ d' ->
     d = d') ->
  (forall d, d ∈ documents ->
     deserialize_document (serialize_document d) = Some d) ->
  get_matching_documents
    (FileSystemArtifactLayer.hashes_of (hash_ <$> documents))
    (snd (add documents w))
  = (documents, None)
  /\ (Forall (fun a => parent_uuids a = [])
        (InMemoryStore.artifacts (FileSystemArtifactLayer.metadata_store w)) ->
      get_matching_documents
        (FileSystemArtifactLayer.hashes_only (hash_ <$> documents))
        (snd (add documents w))
      = (documents, None))
  /\ (Exists (fun a => parent_uuids a <> [])
        (InMemoryStore.artifacts (FileSystemArtifactLayer.metadata_store w)) ->
      get_matching_documents
        (FileSystemArtifactLayer.hashes_only (hash_ <$> documents))
        (snd (add documents w))
      = ([], Some TypeError)).
Proof.
  intros Hq Hfresh Hinj Hround. rewrite add_quiet by done. cbn [snd].
  unfold FileSystemArtifactLayer.get_matching_documents,
    InMemoryStore.select. cbn [FileSystemArtifactLayer.metadata_store].
  rewrite records_of_artifacts.
  set (w' := {| FileSystemArtifactLayer.files := _ |}).
  assert (read_documents
            (uuid <$> (FileSystemArtifactLayer.record_of <$> documents))
            None w' = (documents, None)) as Hread.
  { by apply (read_back documents w' (FileSystemArtifactLayer.files w)). }
  assert (forall a,
            a ∈ FileSystemArtifactLayer.record_of <$> documents ->
            uuid a ∈ hash_ <$> documents) as Hbatch.
  { intros a (d & -> & Hd)%list_elem_of_fmap. simpl.
    by apply list_elem_of_fmap_2. }
  split; [|split].
  - rewrite select_loop_matches.
    2:{ apply Forall_forall. intros a _ [Hnone _]. done. }
    rewrite filter_app, filter_none, filter_all; [done| |].
    + intros a Ha. by apply matches_hashes_of, Hbatch.
    + intros a Ha Hm%matches_hashes_of. by apply (Hfresh a).
  - intros Hflat. rewrite select_loop_matches.
    2:{ apply Forall_app. split.
        - eapply Forall_impl; [exact Hflat|]. by intros a Ha [_ [Hp _]].
        - apply Forall_forall. intros a Ha [_ (_ & _ & Hn)].
          apply Hn. simpl. by apply elem_of_list_to_set, Hbatch. }
    rewrite filter_app, filter_none, filter_all; [done| |].
    + intros a Ha. by apply matches_hashes_only, Hbatch.
    + intros a Ha Hm%matches_hashes_only. by apply (Hfresh a).
  - intros Hex.
    destruct (Exists_first _ _ Hex) as (pre & a & post & Hsplit & Hpre & Ha).
    rewrite Hsplit, <- app_assoc, select_loop_app, select_loop_matches.
    2:{ eapply Forall_impl; [exact Hpre|]. by intros b Hb [_ [Hp _]]. }
    rewrite filter_none.
    2:{ intros b Hb Hm%matches_hashes_only. apply (Hfresh b); [|done].
        rewrite Hsplit. apply elem_of_app. by left. }
    simpl. rewrite select_test_stuck; [done|done|].
    split; [done|]. split; [apply not_elem_of_empty|].
    simpl. intros Hin%elem_of_list_to_set. apply (Hfresh a); [|done].
    rewrite Hsplit. apply elem_of_app. right. by left.
Qed.

(** On a layer where every record of the index has its payload file and
    every payload file holds a readable document, [get_matching_documents]
    with a [parent_hashes] clause never raises: it yields one document per
    selected record, read from the file named by the record's uuid, in
    storage order. *)
Theorem get_matching_documents_complete (s : Selector.t) (w : Layer)
  (ph : gset string) :
  Selector.parent_hashes s = Some ph ->
  FileSystemArtifactLayer.backed w ->
  (forall k payload,
     FileSystemArtifactLayer.files w !! k = Some payload ->
     is_Some (deserialize_document payload)) ->
  exists ds,
    get_matching_documents s w = (ds, None)
    /\ Forall2 (fun a d => read_document (uuid a) w = Ok d)
         (filter (InMemoryStore.matches s)
            (InMemoryStore.artifacts
               (FileSystemArtifactLayer.metadata_store w)))
         ds.
Proof.
  intros Hph Hbacked Hreadable.
  unfold FileSystemArtifactLayer.get_matching_documents,
    InMemoryStore.select.
  rewrite select_loop_matches.
  2:{ apply Forall_forall. intros a _ [Hnone _]. congruence. }
  destruct (read_documents_readable w
              (uuid <$> filter (InMemoryStore.matches s)
                 (InMemoryStore.artifacts
                    (FileSystemArtifactLayer.metadata_store w))) None)
    as (ds & Hds & Hrun).
  - apply Forall_fmap, Forall_forall. intros a Ha. simpl.
    apply list_elem_of_filter in Ha as [_ Ha].
    destruct (Hbacked a Ha) as [payload Hfile].
    destruct (Hreadable _ _ Hfile) as [d Hd].
    exists d. unfold FileSystemArtifactLayer.read_document.
    by rewrite Hfile, Hd.
  - exists ds. split; [done|]. by apply Forall2_fmap_l in Hds.
Qed.

(** A selected record whose payload cannot be read ends the iteration at
    that record: the documents of the records selected before it have been
    yielded, and the exception is [FileNotFoundError] when the file is
    missing and the deserializer's when the payload is not a document.
    This comes before any exception of the selection itself. *)
Theorem get_matching_documents_unreadable (s : Selector.t) (w : Layer)
  (us1 us2 : list string) (u : string) (stop : option Exception)
  (ds : list Document) :
  InMemoryStore.select s (FileSystemArtifactLayer.metadata_store w)
  = (us1 ++ u :: us2, stop) ->
  Forall2 (fun u d => read_document u w = Ok d) us1 ds ->
  (FileSystemArtifactLayer.files w !! u = None ->
   get_matching_documents s w = (ds, Some FileNotFoundError))
  /\ (forall payload,
        FileSystemArtifactLayer.files w !! u = Some payload ->
        deserialize_document payload = None ->
        get_matching_documents s w = (ds, Some DeserializeError)).
Proof.
  intros Hsel Hds.
  unfold FileSystemArtifactLayer.get_matching_documents. rewrite Hsel.
  split.
  - intros Hfile. apply read_documents_stop; [done|].
    unfold FileSystemArtifactLayer.read_document. by rewrite Hfile.
  - intros payload Hfile Hbad. apply read_documents_stop; [done|].
    unfold FileSystemArtifactLayer.read_document. by rewrite Hfile, Hbad.
Qed.

End MoreLayerFacts.

(** D and O added in one call and in two. *)
Lemma add_app_witness :
  FileSystemArtifactLayer.add (fun d => d) ([Sample.D] ++ [Sample.O])
    Sample.empty_layer
  = FileSystemArtifactLayer.add (fun d => d) [Sample.O]
      (snd (FileSystemArtifactLayer.add (fun d => d) [Sample.D]
              Sample.empty_layer)).
Proof.
  apply (add_app (fun d => d) [Sample.D] [Sample.O] Sample.empty_layer).
  reflexivity.
Defined.

(** D and O added to the empty layer and read back. *)
Lemma add_then_get_matching_documents_witness :
  FileSystemArtifactLayer.get_matching_documents Some
    (FileSystemArtifactLayer.hashes_of (hash_ <$> [Sample.D; Sample.O]))
    (snd (FileSystemArtifactLayer.add (fun d => d) [Sample.D; Sample.O]
            Sample.empty_layer))
  = ([Sample.D; Sample.O], None).
Proof.
  refine (proj1 (add_then_get_matching_documents (fun d => d) Some
                   [Sample.D; Sample.O] Sample.empty_layer _ _ _ _)).
  - reflexivity.
  - intros a Ha. by apply elem_of_nil in Ha.
  - intros d d' Hd Hd' Hh.
    apply elem_of_cons in Hd as [->|Hd%list_elem_of_singleton];
      apply elem_of_cons in Hd' as [->|Hd'%list_elem_of_singleton];
      subst; done.
  - done.
Defined.

(** The children of D on the layer that holds K. *)
Lemma get_matching_documents_complete_witness :
  exists ds,
    FileSystemArtifactLayer.get_matching_documents Some
      (FileSystemArtifactLayer.children_of "hD")
      (CachingInterceptor._artifact_layer Sample.primed) = (ds, None)
    /\ Forall2
         (fun a d =>
            FileSystemArtifactLayer.read_document Some (uuid a)
              (CachingInterceptor._artifact_layer Sample.primed) = Ok d)
         (filter
            (InMemoryStore.matches (FileSystemArtifactLayer.children_of "hD"))
            (InMemoryStore.artifacts
               (FileSystemArtifactLayer.metadata_store
                  (CachingInterceptor._artifact_layer Sample.primed))))
         ds.
Proof.
  apply (get_matching_documents_complete Some
           (FileSystemArtifactLayer.children_of "hD")
           (CachingInterceptor._artifact_layer Sample.primed) {["hD"]}).
  - reflexivity.
  - intros a Ha. apply list_elem_of_singleton in Ha. subst a.
    by exists Sample.K.
  - intros k payload _. by exists payload.
Defined.

(** A layer whose index lists A while its directory is empty. *)
Lemma get_matching_documents_unreadable_witness :
  FileSystemArtifactLayer.get_matching_documents (Payload := Document) Some
    (FileSystemArtifactLayer.hashes_of ["hA"])
    (FileSystemArtifactLayer.holding ∅ [Sample.A] [])
  = ([], Some FileNotFoundError).
Proof.
  destruct (get_matching_documents_unreadable (Payload := Document) Some
              (FileSystemArtifactLayer.hashes_of ["hA"])
              (FileSystemArtifactLayer.holding ∅ [Sample.A] [])
              [] [] "hA" None []) as [Hmissing _].
  - by vm_compute.
  - constructor.
  - apply Hmissing. reflexivity.
Defined.

(** * Further properties of the caching interceptor *)

Section MoreInterceptorFacts.
Context {Payload : Type}.
Variable serialize_document : Document -> Payload.
Variable deserialize_document : Payload -> option Document.
Context {TState : Type}.
Variable document_transformer : list Document -> M TState (list Document).

Local Abbreviation Layer := (@FileSystemArtifactLayer.t Payload).
Local Abbreviation Interceptor := (@CachingInterceptor.t Payload TState).
Local Abbreviation transform_documents :=
  (CachingInterceptor.transform_documents serialize_document
     deserialize_document document_transformer).
Local Abbreviation transform_loop :=
  (CachingInterceptor.transform_loop serialize_document
     deserialize_document document_transformer).
Local Abbreviation transform_one :=
  (CachingInterceptor.transform_one serialize_document
     deserialize_document document_transformer).

(** Whether the layer [w] does not know the logical id of a document. *)
Local Abbreviation unknown w :=
  (fun d : Document =>
     InMemoryStore.contains
       (InMemoryStore.artifact_ids (FileSystemArtifactLayer.metadata_store w))
       (id_ d) = false).

Lemma transform_loop_cons (w : Layer) d documents acc (c : Interceptor) :
  transform_loop w (d :: documents) acc c
  = bind
      (transform_one acc
         (d, InMemoryStore.contains
               (InMemoryStore.artifact_ids
                  (FileSystemArtifactLayer.metadata_store w)) (id_ d)))
      (fun acc' => transform_loop w documents acc') c.
Proof. reflexivity. Qed.

(** One turn of the loop logs a call exactly when the flag is off. *)
Lemma transform_one_calls acc d (b : bool) (c : Interceptor) :
  CachingInterceptor.calls (snd (transform_one acc (d, b) c))
  = CachingInterceptor.calls c ++ (if b then [] else [[d]]).
Proof.
  destruct b; simpl.
  - unfold bind, CachingInterceptor.get_child_documents, inspect.
    destruct (collect _); simpl; by rewrite app_nil_r.
  - unfold bind, CachingInterceptor.invoke, zoom.
    destruct (document_transformer [d] _) as [[outs|e] ts]; [|done].
    by destruct (FileSystemArtifactLayer.add _ outs _) as [[[]|e] w].
Qed.

Lemma transform_one_known acc d (c : Interceptor) :
  snd (transform_one acc (d, true) c) = c.
Proof.
  simpl. unfold bind, CachingInterceptor.get_child_documents, inspect.
  by destruct (collect _).
Qed.

Lemma transform_loop_calls (w : Layer) documents acc (c : Interceptor) :
  exists invoked,
    invoked `prefix_of` filter (unknown w) documents
    /\ CachingInterceptor.calls (snd (transform_loop w documents acc c))
       = CachingInterceptor.calls c ++ ((fun d => [d]) <$> invoked)
    /\ (forall out, fst (transform_loop w documents acc c) = Ok out ->
          invoked = filter (unknown w) documents).
Proof.
  revert acc c. induction documents as [|d documents IH]; intros acc c.
  - exists []. simpl. by rewrite app_nil_r.
  - rewrite transform_loop_cons. unfold bind.
    pose proof (transform_one_calls acc d
                  (InMemoryStore.contains
                     (InMemoryStore.artifact_ids
                        (FileSystemArtifactLayer.metadata_store w)) (id_ d)) c)
      as Hcalls.
    destruct (InMemoryStore.contains _ (id_ d)) eqn:Hflag;
      destruct (transform_one acc _ c) as [[acc'|e] c1];
      simpl in Hcalls.
    + rewrite filter_cons_False by congruence.
      destruct (IH acc' c1) as (invoked & Hpre & Hlog & Hall).
      exists invoked. rewrite Hlog, Hcalls, app_nil_r. by eauto.
    + rewrite filter_cons_False by congruence.
      exists []. simpl. rewrite Hcalls.
      split; [apply prefix_nil|]. by split.
    + rewrite filter_cons_True by done.
      destruct (IH acc' c1) as (invoked & Hpre & Hlog & Hall).
      exists (d :: invoked). rewrite Hlog, Hcalls, <- app_assoc.
      split; [by apply prefix_cons|]. split; [done|].
      intros out Hout. f_equal. by eapply Hall.
    + rewrite filter_cons_True by done.
      exists [d]. simpl. rewrite Hcalls.
      split; [apply prefix_cons, prefix_nil|]. by split.
Qed.

(** Whatever comes of a call, the transformer is invoked on one document
    at a time, and only for input documents whose logical id the layer did
    not know when the call began: the calls logged are singleton batches
    of a prefix of those documents, in input order, and of all of them
    when the call returns. *)
Theorem transform_documents_calls (documents : list Document)
  (c : Interceptor) :
  exists invoked,
    invoked `prefix_of`
      filter (unknown (CachingInterceptor._artifact_layer c)) documents
    /\ CachingInterceptor.calls (snd (transform_documents documents c))
       = CachingInterceptor.calls c ++ ((fun d => [d]) <$> invoked)
    /\ (forall out, fst (transform_documents documents c) = Ok out ->
          invoked
          = filter (unknown (CachingInterceptor._artifact_layer c)) documents).
Proof.
  apply (transform_loop_calls (CachingInterceptor._artifact_layer c)
           documents [] c).
Qed.

Lemma transform_loop_known (w : Layer) documents acc (c : Interceptor) :
  Forall (fun d => FileSystemArtifactLayer.exists_ [id_ d] w = [true])
    documents ->
  snd (transform_loop w documents acc c) = c.
Proof.
  intros Hknown. revert acc.
  induction Hknown as [|d documents [= Hd] _ IH]; intros acc; [done|].
  rewrite transform_loop_cons. unfold bind. rewrite Hd.
  pose proof (transform_one_known acc d c) as Hsame.
  destruct (transform_one acc (d, true) c) as [[acc'|e] c1];
    simpl in Hsame; subst c1; [apply IH|done].
Qed.

(** A call on documents whose logical ids the layer all knows leaves the
    interceptor as it was, whether it returns or raises: the transformer
    is not invoked, no file is written, the index and the snapshot do not
    change. *)
Theorem transform_documents_all_known (documents : list Document)
  (c : Interceptor) :
  Forall
    (fun d =>
       FileSystemArtifactLayer.exists_ [id_ d]
         (CachingInterceptor._artifact_layer c) = [true])
    documents ->
  snd (transform_documents documents c) = c.
Proof.
  apply (transform_loop_known (CachingInterceptor._artifact_layer c)
           documents [] c).
Qed.

(** A turn of the loop appends to what was collected before it. *)
Lemma transform_one_acc acc x (c : Interceptor) :
  transform_one acc x c
  = bind (transform_one [] x) (fun new => ret (acc ++ new)) c.
Proof.
  destruct x as [d [|]]; simpl.
  - unfold bind, CachingInterceptor.get_child_documents, inspect, ret.
    by destruct (collect _).
  - unfold bind, CachingInterceptor.invoke, zoom, ret.
    destruct (document_transformer [d] _) as [[outs|e] ts]; [|done].
    by destruct (FileSystemArtifactLayer.add _ outs _) as [[[]|e] w].
Qed.

Lemma transform_loop_acc (w : Layer) documents acc (c : Interceptor) :
  transform_loop w documents acc c
  = bind (transform_loop w documents []) (fun new => ret (acc ++ new)) c.
Proof.
  revert acc c. induction documents as [|d documents IH]; intros acc c.
  - unfold bind, ret. simpl. by rewrite app_nil_r.
  - unfold bind. rewrite !transform_loop_cons. unfold bind.
    rewrite (transform_one_acc acc). unfold bind, ret.
    destruct (transform_one [] _ c) as [[new|e] c1]; [|done].
    rewrite (IH (acc ++ new)), (IH new). unfold bind, ret.
    destruct (transform_loop w documents [] c1) as [[more|e] c2]; [|done].
    by rewrite app_assoc.
Qed.

(** Order of the output: with the existence flags of one call, the result
    for a batch is the result for its first part followed by the result
    for the rest, each in input order; the rest is processed in the state
    the first part leaves, and not at all when the first part raises. *)
Theorem transform_documents_app (l1 l2 : list Document) (c : Interceptor) :
  transform_documents (l1 ++ l2) c
  = (do out1 <- transform_loop (CachingInterceptor._artifact_layer c) l1 [];
     do out2 <- transform_loop (CachingInterceptor._artifact_layer c) l2 [];
     ret (out1 ++ out2)) c.
Proof.
  change (transform_documents (l1 ++ l2) c)
    with (transform_loop (CachingInterceptor._artifact_layer c) (l1 ++ l2)
            [] c).
  rewrite transform_loop_app. apply bind_ext. intros out1 c1.
  apply transform_loop_acc.
Qed.

(** An exception of the transformer is passed on unchanged.  When the
    documents before [d] have been processed, the layer does not know
    [d]'s logical id and the transformer raises on [d], the call raises
    the same exception: the invocation is logged, nothing is stored for
    [d], the documents after [d] are not looked at, and what the earlier
    documents stored stays. *)
Theorem transformer_exception_propagates (pre post : list Document)
  (d : Document) (c c1 : Interceptor) (acc : list Document)
  (e : Exception) (ts : TState) :
  FileSystemArtifactLayer.exists_ [id_ d]
    (CachingInterceptor._artifact_layer c) = [false] ->
  transform_loop (CachingInterceptor._artifact_layer c) pre [] c
  = (Ok acc, c1) ->
  document_transformer [d] (CachingInterceptor._document_transformer c1)
  = (Raise e, ts) ->
  transform_documents (pre ++ d :: post) c
  = (Raise e,
     {| CachingInterceptor._artifact_layer :=
          CachingInterceptor._artifact_layer c1;
        CachingInterceptor._document_transformer := ts;
        CachingInterceptor.calls := CachingInterceptor.calls c1 ++ [[d]] |}).
Proof.
  intros [= Hflag] Hpre Hraise.
  change (transform_documents (pre ++ d :: post) c)
    with (transform_loop (CachingInterceptor._artifact_layer c)
            (pre ++ d :: post) [] c).
  rewrite transform_loop_app. unfold bind at 1. rewrite Hpre.
  rewrite transform_loop_cons, Hflag. simpl.
  unfold bind, CachingInterceptor.invoke. by rewrite Hraise.
Qed.

Lemma add_refused documents (w : Layer) fs :
  FileSystemArtifactLayer.faults w = FileSystemArtifactLayer.Refused :: fs ->
  FileSystemArtifactLayer.add serialize_document documents w
  = (Raise OSError, FileSystemArtifactLayer.set_faults fs w).
Proof.
  intros Hf. unfold FileSystemArtifactLayer.add, bind.
  destruct documents as [|d documents]; simpl.
  - unfold FileSystemArtifactLayer.save, bind,
      FileSystemArtifactLayer.open_w. by rewrite Hf.
  - unfold bind, FileSystemArtifactLayer.add_one, bind,
      FileSystemArtifactLayer.write_file, bind,
      FileSystemArtifactLayer.open_w. by rewrite Hf.
Qed.

(** A refused write loses the transformer's work.  When the layer does
    not know [d]'s logical id, the transformer returns outputs for [d] and
    the first write of [add] is refused, the call raises [OSError]: the
    invocation has taken place, the outputs are neither returned nor
    stored, and the layer still does not know [d]'s logical id. *)
Theorem refused_write_drops_outputs (d : Document) (outs : list Document)
  (ts : TState) (fs : list FileSystemArtifactLayer.Outcome)
  (c : Interceptor) :
  FileSystemArtifactLayer.exists_ [id_ d]
    (CachingInterceptor._artifact_layer c) = [false] ->
  document_transformer [d] (CachingInterceptor._document_transformer c)
  = (Ok outs, ts) ->
  FileSystemArtifactLayer.faults (CachingInterceptor._artifact_layer c)
  = FileSystemArtifactLayer.Refused :: fs ->
  transform_documents [d] c
  = (Raise OSError,
     {| CachingInterceptor._artifact_layer :=
          FileSystemArtifactLayer.set_faults fs
            (CachingInterceptor._artifact_layer c);
        CachingInterceptor._document_transformer := ts;
        CachingInterceptor.calls := CachingInterceptor.calls c ++ [[d]] |})
  /\ FileSystemArtifactLayer.exists_ [id_ d]
       (CachingInterceptor._artifact_layer
          (snd (transform_documents [d] c))) = [false].
Proof.
  intros Hflag Hrun Hf.
  assert (transform_documents [d] c
          = (Raise OSError,
             {| CachingInterceptor._artifact_layer :=
                  FileSystemArtifactLayer.set_faults fs
                    (CachingInterceptor._artifact_layer c);
                CachingInterceptor._document_transformer := ts;
                CachingInterceptor.calls :=
                  CachingInterceptor.calls c ++ [[d]] |})) as Hcall.
  { unfold CachingInterceptor.transform_documents.
    change (id_ <$> [d]) with [id_ d]. rewrite Hflag. simpl.
    unfold bind, CachingInterceptor.invoke, zoom. rewrite Hrun. simpl.
    by rewrite (add_refused outs _ fs). }
  split; [exact Hcall|]. rewrite Hcall. exact Hflag.
Qed.

End MoreInterceptorFacts.

(** A batch of two documents whose logical id the layer knows. *)
Lemma transform_documents_all_known_witness :
  snd (CachingInterceptor.transform_documents (fun d => d) Some
         Sample.relabel [Sample.D; Sample.D] Sample.primed)
  = Sample.primed.
Proof.
  apply (transform_documents_all_known (fun d => d) Some Sample.relabel
           [Sample.D; Sample.D] Sample.primed).
  constructor; [reflexivity|]. constructor; [reflexivity|constructor].
Defined.

(** A raising transformer on a fresh interceptor. *)
Lemma transformer_exception_propagates_witness :
  CachingInterceptor.transform_documents (fun d => d) Some Sample.failing
    ([] ++ Sample.D :: [Sample.E]) Sample.fresh
  = (Raise TransformerError,
     {| CachingInterceptor._artifact_layer :=
          CachingInterceptor._artifact_layer Sample.fresh;
        CachingInterceptor._document_transformer := tt;
        CachingInterceptor.calls :=
          CachingInterceptor.calls Sample.fresh ++ [[Sample.D]] |}).
Proof.
  apply (transformer_exception_propagates (fun d => d) Some Sample.failing
           [] [Sample.E] Sample.D Sample.fresh Sample.fresh []
           TransformerError tt);
    reflexivity.
Defined.

(** A fresh interceptor whose first write is refused. *)
Lemma refused_write_drops_outputs_witness :
  CachingInterceptor.transform_documents (fun d => d) Some Sample.keep_id
    [Sample.D] Sample.read_only
  = (Raise OSError,
     {| CachingInterceptor._artifact_layer :=
          FileSystemArtifactLayer.set_faults []
            (CachingInterceptor._artifact_layer Sample.read_only);
        CachingInterceptor._document_transformer := tt;
        CachingInterceptor.calls :=
          CachingInterceptor.calls Sample.read_only ++ [[Sample.D]] |}).
Proof.
  apply (refused_write_drops_outputs (fun d => d) Some Sample.keep_id
           Sample.D [Sample.K] tt [] Sample.read_only);
    reflexivity.
Defined.
